(** * OpenSearch shard collector: size parsing, shard fetching, gauge callback

    A shallow embedding of package [opensearch] (the shard collector):
    [convertStoreToBytes], [fetchShardInfo] and the observation callback that
    [CollectMetrics] registers.  Go strings are byte strings ([string], one
    [ascii] per byte), a [float64] is an IEEE 754 binary64 value
    ([spec_float] with 53 bits of precision), Go's [(value, error)] results
    are pairs whose second component is [None] for a nil error.

    The Go standard library functions the package calls ([strings.TrimSpace],
    [strings.HasSuffix], [strings.TrimSuffix], [strconv.ParseFloat]) are
    embedded in modules named after their packages. *)

From Stdlib Require Import ZArith List String Ascii Bool Lia.
From Stdlib Require Import Floats.SpecFloat.
Import ListNotations.

Local Open Scope Z_scope.

(** ** Bytes and strings *)

Definition byte := ascii.

(** The numeric value of a byte, 0..255. *)
Definition code (c : byte) : Z := Z.of_N (N_of_ascii c).

Definition bytes (s : string) : list byte := list_ascii_of_string s.
Definition str (l : list byte) : string := string_of_list_ascii l.

(** [len(s)] *)
Definition len (s : list byte) : Z := Z.of_nat (List.length s).

(** [s[i:j]] for [0 <= i <= j <= len(s)] *)
Definition slice (s : list byte) (i j : Z) : list byte :=
  firstn (Z.to_nat (j - i)) (skipn (Z.to_nat i) s).

Definition byte_eqb (a b : byte) : bool := code a =? code b.

Fixpoint bytes_eqb (a b : list byte) : bool :=
  match a, b with
  | [], [] => true
  | x :: a', y :: b' => byte_eqb x y && bytes_eqb a' b'
  | _, _ => false
  end.

(** ** Errors

    An [error] value keeps the structure [fmt.Errorf] and [strconv] give it:
    [errorString msg] is an error that is only a message; [wrapError msg err]
    is what [fmt.Errorf(msg + "%w", err)] builds, whose message is [msg]
    followed by the message of [err] and whose [Unwrap] is [err];
    [NumError Func Num Err] is [*strconv.NumError]. *)
Inductive error : Type :=
| errorString (s : string)
| wrapError (msg : string) (err : error)
| NumError (Func Num : string) (Err : error).

Fixpoint error_eqb (a b : error) : bool :=
  match a, b with
  | errorString s, errorString t => String.eqb s t
  | wrapError m e, wrapError n f => String.eqb m n && error_eqb e f
  | NumError f n e, NumError g m d =>
      String.eqb f g && String.eqb n m && error_eqb e d
  | _, _ => false
  end.

(** ** Package utf8 *)
Module utf8.

Definition RuneError : Z := 65533.
Definition RuneSelf : Z := 128.
Definition UTFMax : Z := 4.

(** Continuation bytes are 10xxxxxx. *)
Definition locb : Z := 128.
Definition hicb : Z := 191.

(** The table [first] together with [acceptRanges]: for a leading byte,
    the size of the encoding and the range allowed for the second byte;
    [None] for the bytes that start no multi-byte encoding. *)
Definition first (s0 : Z) : option (Z * Z * Z) :=
  if s0 <? 194 then None
  else if s0 <=? 223 then Some (2, locb, hicb)
  else if s0 =? 224 then Some (3, 160, hicb)
  else if s0 <=? 236 then Some (3, locb, hicb)
  else if s0 =? 237 then Some (3, locb, 159)
  else if s0 <=? 239 then Some (3, locb, hicb)
  else if s0 =? 240 then Some (4, 144, hicb)
  else if s0 <=? 243 then Some (4, locb, hicb)
  else if s0 =? 244 then Some (4, locb, 143)
  else None.

Definition cont (b : Z) : Z := Z.land b 63.

(** [utf8.DecodeRuneInString]: the first rune of [s] and its width in
    bytes; an invalid encoding is [RuneError] of width 1. *)
Definition DecodeRuneInString (s : list byte) : Z * Z :=
  match s with
  | [] => (RuneError, 0)
  | b0 :: t0 =>
      let s0 := code b0 in
      if s0 <? RuneSelf then (s0, 1)
      else
        match first s0 with
        | None => (RuneError, 1)
        | Some (sz, lo, hi) =>
            if len s <? sz then (RuneError, 1)
            else
              match t0 with
              | [] => (RuneError, 1)
              | b1 :: t1 =>
                  let s1 := code b1 in
                  if (s1 <? lo) || (hi <? s1) then (RuneError, 1)
                  else if sz <=? 2 then
                    (Z.lor (Z.shiftl (Z.land s0 31) 6) (cont s1), 2)
                  else
                    match t1 with
                    | [] => (RuneError, 1)
                    | b2 :: t2 =>
                        let s2 := code b2 in
                        if (s2 <? locb) || (hicb <? s2) then (RuneError, 1)
                        else if sz <=? 3 then
                          (Z.lor (Z.shiftl (Z.land s0 15) 12)
                             (Z.lor (Z.shiftl (cont s1) 6) (cont s2)), 3)
                        else
                          match t2 with
                          | [] => (RuneError, 1)
                          | b3 :: _ =>
                              let s3 := code b3 in
                              if (s3 <? locb) || (hicb <? s3)
                              then (RuneError, 1)
                              else
                                (Z.lor (Z.shiftl (Z.land s0 7) 18)
                                   (Z.lor (Z.shiftl (cont s1) 12)
                                      (Z.lor (Z.shiftl (cont s2) 6)
                                         (cont s3))), 4)
                          end
                    end
              end
        end
  end.

(** [utf8.RuneStart]: the byte is not a continuation byte. *)
Definition RuneStart (b : Z) : bool := negb (Z.land b 192 =? 128).

(** The backward search of [DecodeLastRuneInString]: from [start], step
    down while [start >= lim] until a byte that can start a rune. *)
Fixpoint findStart (fuel : nat) (s : list byte) (start lim : Z) : Z :=
  match fuel with
  | O => start
  | S fuel' =>
      if start <? lim then start
      else if RuneStart (code (nth (Z.to_nat start) s zero)) then start
      else findStart fuel' s (start - 1) lim
  end.

(** [utf8.DecodeLastRuneInString] *)
Definition DecodeLastRuneInString (s : list byte) : Z * Z :=
  let end_ := len s in
  if end_ =? 0 then (RuneError, 0)
  else
    let start := end_ - 1 in
    let r := code (nth (Z.to_nat start) s zero) in
    if r <? RuneSelf then (r, 1)
    else
      let lim := Z.max (end_ - UTFMax) 0 in
      let start := findStart 4 s (start - 1) lim in
      let start := Z.max start 0 in
      let (r, size) := DecodeRuneInString (slice s start end_) in
      if negb (start + size =? end_) then (RuneError, 1) else (r, size).

End utf8.

(** ** Package unicode *)
Module unicode.

Definition MaxLatin1 : Z := 255.

(** [unicode.IsSpace]: the Latin-1 spaces, and beyond Latin-1 the code
    points with the White_Space property. *)
Definition IsSpace (r : Z) : bool :=
  if (0 <=? r) && (r <=? MaxLatin1) then
    ((9 <=? r) && (r <=? 13)) || (r =? 32) || (r =? 133) || (r =? 160)
  else
    (r =? 5760) || ((8192 <=? r) && (r <=? 8202)) || (r =? 8232)
    || (r =? 8233) || (r =? 8239) || (r =? 8287) || (r =? 12288).

End unicode.

(** ** Package strings *)
Module strings.

(** The table [asciiSpace]: tab, newline, vertical tab, form feed,
    carriage return and space. *)
Definition asciiSpace (c : Z) : bool := ((9 <=? c) && (c <=? 13)) || (c =? 32).

(** [indexFunc(s, f, truth)]: the byte index of the first rune [r] of [s]
    with [f r = truth], or -1. *)
Fixpoint indexFunc_from (fuel : nat) (s : list byte) (f : Z -> bool)
         (truth : bool) (i : Z) : Z :=
  match fuel with
  | O => -1
  | S fuel' =>
      match s with
      | [] => -1
      | _ =>
          let (r, size) := utf8.DecodeRuneInString s in
          if Bool.eqb (f r) truth then i
          else indexFunc_from fuel' (skipn (Z.to_nat size) s) f truth
                              (i + size)
      end
  end.

Definition indexFunc (s : list byte) (f : Z -> bool) (truth : bool) : Z :=
  indexFunc_from (List.length s) s f truth 0.

(** [lastIndexFunc(s, f, truth)]: the byte index of the last rune [r] of
    [s] with [f r = truth], or -1. *)
Fixpoint lastIndexFunc_from (fuel : nat) (s : list byte) (f : Z -> bool)
         (truth : bool) (i : Z) : Z :=
  match fuel with
  | O => -1
  | S fuel' =>
      if i <=? 0 then -1
      else
        let (r, size) := utf8.DecodeLastRuneInString (slice s 0 i) in
        let i := i - size in
        if Bool.eqb (f r) truth then i
        else lastIndexFunc_from fuel' s f truth i
  end.

Definition lastIndexFunc (s : list byte) (f : Z -> bool) (truth : bool) : Z :=
  lastIndexFunc_from (List.length s) s f truth (len s).

(** [strings.TrimLeftFunc] *)
Definition TrimLeftFunc (s : list byte) (f : Z -> bool) : list byte :=
  let i := indexFunc s f false in
  if i =? -1 then [] else slice s i (len s).

(** [strings.TrimRightFunc] *)
Definition TrimRightFunc (s : list byte) (f : Z -> bool) : list byte :=
  let i := lastIndexFunc s f false in
  let i :=
    if (0 <=? i) && (utf8.RuneSelf <=? code (nth (Z.to_nat i) s zero)) then
      let (_, wid) := utf8.DecodeRuneInString (slice s i (len s)) in
      i + wid
    else i + 1 in
  slice s 0 i.

(** [strings.TrimFunc] *)
Definition TrimFunc (s : list byte) (f : Z -> bool) : list byte :=
  TrimRightFunc (TrimLeftFunc s f) f.

(** The first loop of [TrimSpace]: skip ASCII spaces from the left.  The
    result is [s[start:]], flagged when the scan stopped at a byte that
    is not ASCII. *)
Fixpoint scanStart (s : list byte) : bool * list byte :=
  match s with
  | [] => (false, [])
  | c :: t =>
      if utf8.RuneSelf <=? code c then (true, s)
      else if asciiSpace (code c) then scanStart t
      else (false, s)
  end.

(** The second loop of [TrimSpace], on the reversed [s[start:]]: skip
    ASCII spaces from the right.  The result is the reversed
    [s[start:stop]], flagged the same way. *)
Fixpoint scanStop (r : list byte) : bool * list byte :=
  match r with
  | [] => (false, [])
  | c :: t =>
      if utf8.RuneSelf <=? code c then (true, r)
      else if asciiSpace (code c) then scanStop t
      else (false, r)
  end.

Definition TrimSpace_bytes (s : list byte) : list byte :=
  match scanStart s with
  | (true, rest) => TrimFunc rest unicode.IsSpace
  | (false, rest) =>
      match scanStop (rev rest) with
      | (true, r) => TrimRightFunc (rev r) unicode.IsSpace
      | (false, r) => rev r
      end
  end.

(** [strings.TrimSpace] *)
Definition TrimSpace (s : string) : string := str (TrimSpace_bytes (bytes s)).

(** [strings.HasSuffix]:
    [len(s) >= len(suffix) && s[len(s)-len(suffix):] == suffix] *)
Definition HasSuffix (s suffix : string) : bool :=
  let b := bytes s in
  let x := bytes suffix in
  (len x <=? len b) && bytes_eqb (slice b (len b - len x) (len b)) x.

(** [strings.TrimSuffix] *)
Definition TrimSuffix (s suffix : string) : string :=
  if HasSuffix s suffix
  then str (slice (bytes s) 0 (len (bytes s) - len (bytes suffix)))
  else s.

(** [strings.Index(s, substr) >= 0], by trying every position. *)
Fixpoint hasPrefix_bytes (s p : list byte) : bool :=
  match p, s with
  | [], _ => true
  | x :: p', y :: s' => byte_eqb x y && hasPrefix_bytes s' p'
  | _ :: _, [] => false
  end.

Fixpoint contains_bytes (s sub : list byte) : bool :=
  hasPrefix_bytes s sub ||
  match s with
  | [] => false
  | _ :: t => contains_bytes t sub
  end.

(** [strings.Contains] *)
Definition Contains (s substr : string) : bool :=
  contains_bytes (bytes s) (bytes substr).

End strings.

(** ** float64 *)
Module float64.

Definition prec : Z := 53.
Definition emax : Z := 1024.

(** An IEEE 754 binary64 value. *)
Definition t : Type := spec_float.

Definition zero : t := S754_zero false.
Definition NaN : t := S754_nan.

(** [math.Inf(sign)] *)
Definition Inf (sign : Z) : t := S754_infinity (sign <? 0).

(** The float64 nearest to an integer (conversion of a constant). *)
Definition ofZ (z : Z) : t := binary_normalize prec emax z 0 false.

(** [x * y] *)
Definition mul (x y : t) : t := SFmul prec emax x y.

(** The float64 nearest to [m * 2^e], ties to even, [m > 0]. *)
Definition round2 (neg : bool) (m : positive) (e : Z) : t :=
  binary_round prec emax neg m e.

(** The float64 nearest to [m * 10^e], ties to even, [m > 0]. *)
Definition round10 (neg : bool) (m : positive) (e : Z) : t :=
  if 0 <=? e then binary_round prec emax neg (m * Z.to_pos (10 ^ e)) 0
  else
    let '(q, e2, l) :=
      SFdiv_core_binary prec emax (Zpos m) 0 (10 ^ (- e)) 0 in
    binary_round_aux prec emax neg q e2 l.

Definition isInf (x : t) : bool :=
  match x with S754_infinity _ => true | _ => false end.

Definition isNaN (x : t) : bool :=
  match x with S754_nan => true | _ => false end.

Definition isFinite (x : t) : bool := negb (isInf x) && negb (isNaN x).

End float64.

(** ** Package strconv *)
Module strconv.

Definition ErrSyntax : error := errorString "invalid syntax".
Definition ErrRange : error := errorString "value out of range".

Definition fnParseFloat : string := "ParseFloat".

Definition syntaxError (fn s : string) : error := NumError fn s ErrSyntax.
Definition rangeError (fn s : string) : error := NumError fn s ErrRange.

(** [lower(c)]: [c | ('x' - 'X')] *)
Definition lower (c : Z) : Z := Z.lor c 32.

Definition isDigit (c : Z) : bool := (48 <=? c) && (c <=? 57).
Definition isHexLetter (c : Z) : bool := (97 <=? lower c) && (lower c <=? 102).

(** [commonPrefixLenIgnoreCase(s, prefix)], [prefix] in lower case. *)
Fixpoint commonPrefixLenIgnoreCase (s prefix : list byte) : Z :=
  match s, prefix with
  | c :: s', p :: prefix' =>
      let c := code c in
      let c := if (65 <=? c) && (c <=? 90) then c + 32 else c in
      if c =? code p then 1 + commonPrefixLenIgnoreCase s' prefix' else 0
  | _, _ => 0
  end.

Definition infOf (sign nsign : Z) (s : list byte) : float64.t * Z * bool :=
  let n := commonPrefixLenIgnoreCase s (bytes "infinity") in
  let n := if (3 <? n) && (n <? 8) then 3 else n in
  if (n =? 3) || (n =? 8) then (float64.Inf sign, nsign + n, true)
  else (float64.zero, 0, false).

(** [special(s)]: the possibly signed [inf], [infinity] and the unsigned
    [nan], in any letter case, as a prefix of [s]; the value, the length
    of the prefix and whether there is one. *)
Definition special (s : list byte) : float64.t * Z * bool :=
  match s with
  | [] => (float64.zero, 0, false)
  | c :: t =>
      let c := code c in
      if c =? 43 then infOf 1 1 t
      else if c =? 45 then infOf (-1) 1 t
      else if (c =? 105) || (c =? 73) then infOf 1 0 s
      else if (c =? 110) || (c =? 78) then
        if commonPrefixLenIgnoreCase s (bytes "nan") =? 3
        then (float64.NaN, 3, true)
        else (float64.zero, 0, false)
      else (float64.zero, 0, false)
  end.

(** What the digit loop of [readFloat] keeps: [mant] is the number the
    digits read so far spell after the leading zeros (all of them: the
    conversion below rounds the exact value, so there is no cut at 19
    digits and no [trunc] flag), [nd] how many they are, [dp] the place of
    the point. *)
Record digits : Type := mkDigits {
  sawdot : bool;
  sawdigits : bool;
  nd : Z;
  dp : Z;
  mant : Z;
  underscores : bool
}.

Definition digits0 : digits := mkDigits false false 0 0 0 false.

(** The loop over the mantissa: the state at the first byte that belongs
    to no mantissa, and the rest of the string from that byte on. *)
Fixpoint readDigits (base : Z) (s : list byte) (d : digits)
  : digits * list byte :=
  match s with
  | [] => (d, [])
  | b :: t =>
      let c := code b in
      if c =? 95 then
        readDigits base t
          (mkDigits (sawdot d) (sawdigits d) (nd d) (dp d) (mant d) true)
      else if c =? 46 then
        if sawdot d then (d, s)
        else readDigits base t
               (mkDigits true (sawdigits d) (nd d) (nd d) (mant d)
                  (underscores d))
      else if isDigit c then
        if (c =? 48) && (nd d =? 0) then
          readDigits base t
            (mkDigits (sawdot d) true (nd d) (dp d - 1) (mant d)
               (underscores d))
        else
          readDigits base t
            (mkDigits (sawdot d) true (nd d + 1) (dp d)
               (mant d * base + (c - 48)) (underscores d))
      else if (base =? 16) && isHexLetter c then
        readDigits base t
          (mkDigits (sawdot d) true (nd d + 1) (dp d)
             (mant d * 16 + (lower c - 97 + 10)) (underscores d))
      else (d, s)
  end.

(** The loop over the digits of the exponent: [e] stops growing once it
    has reached 10000. *)
Fixpoint readExp (s : list byte) (e : Z) (us : bool) : Z * bool * list byte :=
  match s with
  | [] => (e, us, [])
  | b :: t =>
      let c := code b in
      if c =? 95 then readExp t e true
      else if isDigit c then
        readExp t (if e <? 10000 then e * 10 + (c - 48) else e) us
      else (e, us, s)
  end.

(** [underscoreOK(s)]: underscores stand only between digits, or between
    a base prefix and a digit.  [saw] is the kind of the last byte: 94
    at the start, 48 after a digit or base prefix, 95 after an
    underscore, 33 after anything else. *)
Fixpoint underscoreLoop (hex : bool) (s : list byte) (saw : Z) : bool :=
  match s with
  | [] => negb (saw =? 95)
  | b :: t =>
      let c := code b in
      if isDigit c || (hex && isHexLetter c) then underscoreLoop hex t 48
      else if c =? 95 then
        if negb (saw =? 48) then false else underscoreLoop hex t 95
      else if saw =? 95 then false
      else underscoreLoop hex t 33
  end.

Definition underscoreOK (s : list byte) : bool :=
  let s :=
    match s with
    | b :: t => if (code b =? 45) || (code b =? 43) then t else s
    | [] => s
    end in
  match s with
  | b0 :: b1 :: t =>
      let l := lower (code b1) in
      if (code b0 =? 48) && ((l =? 98) || (l =? 111) || (l =? 120))
      then underscoreLoop (l =? 120) t 48
      else underscoreLoop false s 94
  | _ => underscoreLoop false s 94
  end.

(** The result of [readFloat]: the sign, whether the number is
    hexadecimal, the mantissa with its number of digits, the place of the
    point (in digits, or in bits for a hexadecimal number) and the number
    of bytes read. *)
Record number : Type := mkNumber {
  neg : bool;
  hex : bool;
  mantissa : Z;
  ndigits : Z;
  point : Z;
  read : Z
}.

(** The optional sign: whether it is a minus, and the string after it. *)
Definition readSign (s : list byte) : bool * list byte :=
  match s with
  | b :: t =>
      if code b =? 43 then (false, t)
      else if code b =? 45 then (true, t)
      else (false, s)
  | [] => (false, s)
  end.

(** The optional base prefix [0x], taken only when a byte follows it:
    whether the number is hexadecimal, and the string after the prefix. *)
Definition readBase (s : list byte) : bool * list byte :=
  match s with
  | b0 :: b1 :: ((_ :: _) as t) =>
      if (code b0 =? 48) && (lower (code b1) =? 120) then (true, t)
      else (false, s)
  | _ => (false, s)
  end.

(** The optional exponent at [s], the rest of the string after the
    mantissa: the signed exponent, the underscore flag and the rest of the
    string after it; [None] where [readFloat] gives up (an exponent
    without digits, a hexadecimal number without exponent). *)
Definition readExponent (hex : bool) (s : list byte) (us : bool)
  : option (Z * bool * list byte) :=
  let expChar := if hex then 112 else 101 in
  match s with
  | b :: s1 =>
      if lower (code b) =? expChar then
        match s1 with
        | [] => None
        | b' :: s2 =>
            let '(esign, s3) :=
              if code b' =? 43 then (1, s2)
              else if code b' =? 45 then (-1, s2)
              else (1, s1) in
            match s3 with
            | [] => None
            | b'' :: _ =>
                if negb (isDigit (code b'')) then None
                else
                  let '(e, us, rest) := readExp s3 0 us in
                  Some (e * esign, us, rest)
            end
        end
      else if hex then None
      else Some (0, us, s)
  | [] => if hex then None else Some (0, us, s)
  end.

(** [readFloat(s)]: [None] where the Go function returns [ok = false]. *)
Definition readFloat (s : list byte) : option number :=
  match s with
  | [] => None
  | _ =>
      let '(neg, s1) := readSign s in
      let '(hex, s2) := readBase s1 in
      let '(d, s3) := readDigits (if hex then 16 else 10) s2 digits0 in
      if negb (sawdigits d) then None
      else
        let dp := if sawdot d then dp d else nd d in
        let '(dp, nd) := if hex then (dp * 4, nd d * 4) else (dp, nd d) in
        match readExponent hex s3 (underscores d) with
        | None => None
        | Some (e, us, rest) =>
            let i := len s - len rest in
            if us && negb (underscoreOK (slice s 0 i)) then None
            else Some (mkNumber neg hex (mant d) nd (dp + e) i)
        end
  end.

(** The conversion of the number read to the nearest float64, ties to
    even, and whether it overflowed.  A decimal number is
    [0.d1...dn * 10^point]: it is zero without digits, overflows beyond
    [point > 310] and is zero below [point < -330]; a hexadecimal one is
    [mantissa * 2^(point - ndigits)]. *)
Definition convert (n : number) : float64.t * bool :=
  match mantissa n with
  | Zpos m =>
      if hex n then
        let f := float64.round2 (neg n) m (point n - ndigits n) in
        (f, float64.isInf f)
      else if 310 <? point n then (S754_infinity (neg n), true)
      else if point n <? -330 then (S754_zero (neg n), false)
      else
        let f := float64.round10 (neg n) m (point n - ndigits n) in
        (f, float64.isInf f)
  | _ => (S754_zero (neg n), false)
  end.

(** [atof64(s)]: the value, the number of bytes read and the error. *)
Definition atof64 (str : string) : float64.t * Z * option error :=
  let s := bytes str in
  match special s with
  | (val, n, true) => (val, n, None)
  | _ =>
      match readFloat s with
      | None => (float64.zero, 0, Some (syntaxError fnParseFloat str))
      | Some num =>
          let (f, ovf) := convert num in
          (f, read num,
           if ovf then Some (rangeError fnParseFloat str) else None)
      end
  end.

Definition isSyntax (err : option error) : bool :=
  match err with
  | Some (NumError _ _ e) => error_eqb e ErrSyntax
  | _ => false
  end.

(** [strconv.ParseFloat(s, 64)] *)
Definition ParseFloat (s : string) : float64.t * option error :=
  let '(f, n, err) := atof64 s in
  if negb (n =? len (bytes s)) && negb (isSyntax err)
  then (float64.zero, Some (syntaxError fnParseFloat s))
  else (f, err).

End strconv.

Local Open Scope string_scope.

(** ** Package opensearch *)
Module opensearch.

(** [type ShardInfo struct]: one row of [_cat/shards], every field a string. *)
Record ShardInfo : Type := mkShardInfo {
  Index : string;
  Shard : string;
  Prirep : string;
  State : string;
  Docs : string;
  Store : string;
  IP : string;
  Node : string
}.

(** The branch of the [switch] of [convertStoreToBytes] that a trimmed
    string takes: the multiplier and the string without its suffix. *)
Definition unitOf (store : string) : option (float64.t * string) :=
  if strings.HasSuffix store "kb" then
    Some (float64.ofZ 1024, strings.TrimSuffix store "kb")
  else if strings.HasSuffix store "mb" then
    Some (float64.ofZ (1024 * 1024), strings.TrimSuffix store "mb")
  else if strings.HasSuffix store "gb" then
    Some (float64.ofZ (1024 * 1024 * 1024), strings.TrimSuffix store "gb")
  else None.

(** [func convertStoreToBytes(store string) (float64, error)] *)
Definition convertStoreToBytes (store : string) : float64.t * option error :=
  let store := strings.TrimSpace store in
  if String.eqb store "" then (float64.zero, None)
  else
    match unitOf store with
    | None =>
        (float64.zero, Some (errorString ("unknown size unit in: " ++ store)))
    | Some (multiplier, store) =>
        match strconv.ParseFloat store with
        | (_, Some err) =>
            (float64.zero, Some (wrapError "failed to parse size value: " err))
        | (value, None) => (float64.mul value multiplier, None)
        end
    end.

(** An HTTP request as [fetchShardInfo] builds it: the method and the URL. *)
Record Request : Type := mkRequest {
  Method : string;
  URL : string
}.

(** One call of [o.ObserveFloat64(shardStoreSize, value, attrs)]: the value
    and the attributes, as key and string value, in the order given. *)
Record Observation : Type := mkObservation {
  value : float64.t;
  attrs : list (string * string)
}.

(** [attribute.String(k, v)] *)
Definition attribute_String (k v : string) : string * string := (k, v).

Section Collector.

(** The surroundings of the collector.  [World] is the state of the
    network and of the cluster, [Body] a response body still to be read.
    [parseURL] is the check [http.NewRequestWithContext] makes of the
    URL, [clientDo] is [c.client.Do], which gives a response or an error
    (transport failures, time-outs and cancellation of the context),
    [decode] is [json.NewDecoder(body).Decode(&shards)]. *)
Variable World : Type.
Variable Body : Type.
Variable parseURL : string -> option error.
Variable clientDo : World -> Request -> World * (Body + error).
Variable decode : Body -> list ShardInfo * option error.

(** [c.endpoint] of the [ShardCollector] *)
Variable endpoint : string.

(** The network together with the requests handed to [c.client.Do] so
    far, oldest first. *)
Record Net : Type := mkNet {
  world : World;
  sent : list Request
}.

(** [http.NewRequestWithContext(ctx, method, url, nil)] *)
Definition NewRequestWithContext (method url : string) : Request + error :=
  match parseURL url with
  | Some err => inr err
  | None => inl (mkRequest method url)
  end.

(** [c.client.Do(req)], logging the request. *)
Definition Do (n : Net) (req : Request) : Net * (Body + error) :=
  let (w, r) := clientDo (world n) req in
  (mkNet w (sent n ++ [req]), r).

(** [fmt.Sprintf("%s/_cat/shards/%s?format=json", c.endpoint, index)] *)
Definition shardsURL (index : string) : string :=
  endpoint ++ "/_cat/shards/" ++ index ++ "?format=json".

(** The body of the loop of [fetchShardInfo] for one index, up to the
    decoding: the records decoded, or [nil] and the error the function
    returns. *)
Definition fetchIndex (n : Net) (index : string)
  : Net * (list ShardInfo * option error) :=
  let url := shardsURL index in
  match NewRequestWithContext "GET" url with
  | inr err => (n, ([], Some (wrapError "failed to create request: " err)))
  | inl req =>
      match Do n req with
      | (n', inr err) =>
          (n', ([], Some (wrapError "failed to execute request: " err)))
      | (n', inl body) =>
          match decode body with
          | (_, Some err) =>
              (n', ([], Some (wrapError "failed to decode response: " err)))
          | (shards, None) => (n', (shards, None))
          end
      end
  end.

(** The loop of [fetchShardInfo] over [indices], [allShards] being the
    records appended so far: the first error returns [nil] and the error. *)
Fixpoint fetchLoop (indices : list string) (n : Net)
         (allShards : list ShardInfo)
  : Net * (list ShardInfo * option error) :=
  match indices with
  | [] => (n, (allShards, None))
  | index :: rest =>
      match fetchIndex n index with
      | (n', (_, Some err)) => (n', ([], Some err))
      | (n', (shards, None)) => fetchLoop rest n' (allShards ++ shards)
      end
  end.

(** [indices := []string{"otlp-metrics", "otlp-logs"}] *)
Definition indices : list string := ["otlp-metrics"; "otlp-logs"].

(** [func (c *ShardCollector) fetchShardInfo(ctx) ([]ShardInfo, error)] *)
Definition fetchShardInfo (n : Net) : Net * (list ShardInfo * option error) :=
  fetchLoop indices n [].

(** The attributes of the observation of a record. *)
Definition attrsOf (shard : ShardInfo) : list (string * string) :=
  [ attribute_String "index" (Index shard);
    attribute_String "shard" (Shard shard);
    attribute_String "prirep" (Prirep shard);
    attribute_String "state" (State shard);
    attribute_String "node" (Node shard);
    attribute_String "ip" (IP shard) ].

(** The loop of the callback over the records fetched; [o] is what the
    observer has been given so far. *)
Fixpoint observeShards (shards : list ShardInfo) (o : list Observation)
  : list Observation * option error :=
  match shards with
  | [] => (o, None)
  | shard :: rest =>
      match convertStoreToBytes (Store shard) with
      | (_, Some err) =>
          (o, Some (wrapError "failed to convert store size: " err))
      | (sizeInBytes, None) =>
          observeShards rest (o ++ [mkObservation sizeInBytes (attrsOf shard)])
      end
  end.

(** The function [CollectMetrics] registers with [c.meter.RegisterCallback]:
    the calls made on the observer, and the error returned. *)
Definition callback (n : Net) : Net * (list Observation * option error) :=
  match fetchShardInfo n with
  | (n', (_, Some err)) =>
      (n', ([], Some (wrapError "failed to fetch shard info: " err)))
  | (n', (shards, None)) => (n', observeShards shards [])
  end.

(** Modelled from the spec: the commit step of the export pipeline, which
    belongs to the metrics SDK and is not part of the package.  The
    observations of a cycle are committed only if the callback returns
    without an error. *)
Definition committed (r : list Observation * option error)
  : list Observation :=
  match snd r with
  | None => fst r
  | Some _ => []
  end.

(** The requests of a successful fetch, index by index: from [n], each
    index of the list gets its request built, answered and decoded
    without error, giving the groups of records in order. *)
Inductive Fetched : Net -> list string -> Net -> list (list ShardInfo) -> Prop :=
| Fetched_nil : forall n, Fetched n [] n []
| Fetched_cons : forall n index rest n1 n2 shards groups,
    fetchIndex n index = (n1, (shards, None)) ->
    Fetched n1 rest n2 groups ->
    Fetched n (index :: rest) n2 (shards :: groups).

(** The request [fetchShardInfo] makes for an index. *)
Definition requestFor (index : string) : Request :=
  mkRequest "GET" (shardsURL index).

End Collector.

Arguments sent {World}.
Arguments world {World}.
Arguments mkNet {World}.

End opensearch.

Import opensearch.

(** ** Inputs the properties speak of *)

(** A decimal numeral: an optional sign, then digits with at most one
    decimal point among them, and at least one digit. *)
Fixpoint numeralBody (s : list byte) (sawdot sawdigit : bool) : bool :=
  match s with
  | [] => sawdigit
  | b :: t =>
      if strconv.isDigit (code b) then numeralBody t sawdot true
      else if (code b =? 46)%Z then
        if sawdot then false else numeralBody t true sawdigit
      else false
  end.

Definition decimalNumeral (s : string) : bool :=
  match bytes s with
  | [] => false
  | b :: t =>
      if ((code b =? 43) || (code b =? 45))%Z then numeralBody t false false
      else numeralBody (b :: t) false false
  end.

(** A byte of the body of a decimal numeral is a digit or the point. *)
Definition numeralByte (c : Z) : Prop := (48 <= c <= 57 \/ c = 46)%Z.

(** A string of white space only: decoded rune by rune, as a Go [range]
    over the string does, it has no rune that is not a space. *)
Definition onlySpace (s : string) : bool :=
  (strings.indexFunc (bytes s) unicode.IsSpace false =? -1)%Z.

(** A byte that is ASCII and not a space: both loops of [TrimSpace] stop
    at it. *)
Definition plain (c : byte) : bool :=
  ((code c <? utf8.RuneSelf) && negb (strings.asciiSpace (code c)))%Z.

(** The multiplier of a unit as a power of two. *)
Definition unitPower (u : string) : option Z :=
  if String.eqb u "kb" then Some 10%Z
  else if String.eqb u "mb" then Some 20%Z
  else if String.eqb u "gb" then Some 30%Z
  else None.

(** The digit 1 followed by [n] zeros. *)
Definition oneAndZeros (n : nat) : string :=
  String "1" (str (repeat "0"%char n)).

(** ** A stub cluster

    A cluster for the examples: the world has no state, a response body is
    the outcome its decoding will have, and [serve] says what each URL
    answers. *)
Module Stub.

Definition World : Type := unit.
Definition Body : Type := (list ShardInfo * option error)%type.

Definition parseURL (_ : string) : option error := None.

Definition clientDo (serve : string -> Body + error) (w : World)
           (req : Request) : World * (Body + error) :=
  (w, serve (URL req)).

Definition decode (b : Body) : list ShardInfo * option error := b.

Definition endpoint : string := "http://localhost:3000".

Definition metricsURL : string :=
  "http://localhost:3000/_cat/shards/otlp-metrics?format=json".
Definition logsURL : string :=
  "http://localhost:3000/_cat/shards/otlp-logs?format=json".

Definition m0 : ShardInfo :=
  mkShardInfo "otlp-metrics" "0" "p" "STARTED" "1200" "512kb" "10.0.0.1" "node-1".
Definition m1 : ShardInfo :=
  mkShardInfo "otlp-metrics" "0" "r" "STARTED" "1200" "1.5gb" "10.0.0.2" "node-2".
Definition l0 : ShardInfo :=
  mkShardInfo "otlp-logs" "0" "p" "STARTED" "7" "0mb" "10.0.0.1" "node-1".
Definition bad : ShardInfo :=
  mkShardInfo "otlp-logs" "1" "r" "UNASSIGNED" "" "10tb" "" "".

Definition refused : error := errorString "connection refused".
Definition notArray : error :=
  errorString
    "json: cannot unmarshal object into Go value of type []opensearch.ShardInfo".

(** Both indices answer: two records, then one. *)
Definition healthy (url : string) : Body + error :=
  if String.eqb url metricsURL then inl ([m0; m1], None)
  else if String.eqb url logsURL then inl ([l0], None)
  else inr refused.

(** The second index holds a record whose size has an unknown unit. *)
Definition oddSize (url : string) : Body + error :=
  if String.eqb url metricsURL then inl ([m0; m1], None)
  else if String.eqb url logsURL then inl ([l0; bad], None)
  else inr refused.

(** The request for the second index fails in the transport. *)
Definition logsDown (url : string) : Body + error :=
  if String.eqb url metricsURL then inl ([m0; m1], None)
  else inr refused.

(** The first index answers with a JSON object. *)
Definition metricsObject (url : string) : Body + error :=
  if String.eqb url metricsURL then inl ([], Some notArray)
  else if String.eqb url logsURL then inl ([l0], None)
  else inr refused.

(** The second index answers with a JSON object. *)
Definition logsObject (url : string) : Body + error :=
  if String.eqb url metricsURL then inl ([m0; m1], None)
  else if String.eqb url logsURL then inl ([], Some notArray)
  else inr refused.

Definition start : Net World := mkNet tt [].

Definition fetch (serve : string -> Body + error) :=
  fetchShardInfo World Body parseURL (clientDo serve) decode endpoint start.

Definition run (serve : string -> Body + error) :=
  callback World Body parseURL (clientDo serve) decode endpoint start.

End Stub.

(** ** What the properties of the collector speak of *)

(** The observation the callback makes of a record whose size converts. *)
Definition observationOf (shard : ShardInfo) : Observation :=
  mkObservation (fst (convertStoreToBytes (Store shard)))
    [ ("index", Index shard); ("shard", Shard shard);
      ("prirep", Prirep shard); ("state", State shard);
      ("node", Node shard); ("ip", IP shard) ].

(** The size of a record converts. *)
Definition converts (shard : ShardInfo) : Prop :=
  snd (convertStoreToBytes (Store shard)) = None.

(** ** Package net/http: the client over its transport *)
Module http.

(** [strconv.Quote] of a string of printable ASCII bytes other than the
    quote and the backslash: the string between two quotes. *)
Definition Quote (s : string) : string := String "034" (s ++ String "034" "").

(** [&url.Error{Op, URL, Err}]: its message is [Op], the quoted [URL], a
    colon and the message of [Err]; its [Unwrap] is [Err]. *)
Definition urlError (Op URL : string) (Err : error) : error :=
  wrapError (Op ++ " " ++ Quote URL ++ ": ") Err.

(** [ascii.ToLower] on one byte. *)
Definition toLower (c : byte) : byte :=
  if ((65 <=? code c) && (code c <=? 90))%Z
  then ascii_of_N (Z.to_N (code c + 32)) else c.

(** [urlErrorOp(method)]: the method with its first letter as it is and
    the others in lower case, [Get] for the empty method; a method with a
    byte that is not printable ASCII is left as it is. *)
Definition urlErrorOp (method : string) : string :=
  match bytes method with
  | [] => "Get"
  | c :: t =>
      if forallb (fun b => ((32 <=? code b) && (code b <=? 126))%Z) (c :: t)
      then str (c :: map toLower t) else method
  end.

Section Client.

(** The transport of the client: [RoundTrip] and everything below it. *)
Variable World : Type.
Variable Body : Type.
Variable roundTrip : World -> Request -> World * (Body + error).

(** The method [Do] of [http.Client]: an error of the transport comes back as a
    [*url.Error] with the operation of the method and the URL of the
    request.  (Redirects are left out, and the URL is taken as the request
    has it.) *)
Definition ClientDo (w : World) (req : Request) : World * (Body + error) :=
  match roundTrip w req with
  | (w', inr err) =>
      (w', inr (urlError (urlErrorOp (Method req)) (URL req) err))
  | (w', inl body) => (w', inl body)
  end.

End Client.

End http.

(** ** What the cluster answers *)
Module cluster.

(** The request for the shards of an index, as the interface of the
    cluster has it. *)
Definition getShards (endpoint index : string) : Request :=
  mkRequest "GET" (endpoint ++ "/_cat/shards/" ++ index ++ "?format=json").

Section Served.

Variable World : Type.
Variable Body : Type.
Variable parseURL : string -> option error.
Variable clientDo : World -> Request -> World * (Body + error).
Variable decode : Body -> list ShardInfo * option error.
Variable endpoint : string.

(** From the world [w], the requests for the shards of the indices of the
    list, made one after the other, are all answered, and every answer
    decodes: the world after the last answer, and the records decoded
    from each answer in turn.  This speaks of the surroundings only, not
    of the collector. *)
Inductive Served : World -> list string -> World -> list (list ShardInfo) -> Prop :=
| Served_nil : forall w, Served w [] w []
| Served_cons : forall w index rest w1 body shards w2 groups,
    parseURL (URL (getShards endpoint index)) = None ->
    clientDo w (getShards endpoint index) = (w1, inl body) ->
    decode body = (shards, None) ->
    Served w1 rest w2 groups ->
    Served w (index :: rest) w2 (shards :: groups).

End Served.

End cluster.

Import cluster.

(** An error names a string: the string occurs in one of the messages or
    fields the error is made of. *)
Fixpoint mentions (e : error) (s : string) : bool :=
  match e with
  | errorString m => strings.Contains m s
  | wrapError m err => strings.Contains m s || mentions err s
  | NumError f n err =>
      strings.Contains f s || strings.Contains n s || mentions err s
  end.

(** The error of a failed fetch names the index that failed: the index can
    be read off the error, by [offender], whatever the transport of the
    HTTP client and the decoder do and for every list of indices,
    whichever index is the first not to be served. *)
Definition namesOffender (offender : error -> string) : Prop :=
  forall (World Body : Type) (parseURL : string -> option error)
         (roundTrip : World -> Request -> World * (Body + error))
         (decode : Body -> list ShardInfo * option error) (endpoint : string)
         (pre : list string) (index : string) (post : list string)
         (n n' : Net World) (w1 : World) (groups : list (list ShardInfo))
         (x : list ShardInfo) (e : error),
    Served World Body parseURL (http.ClientDo World Body roundTrip) decode
      endpoint (world n) pre w1 groups ->
    (forall w2 shards,
        ~ Served World Body parseURL (http.ClientDo World Body roundTrip)
            decode endpoint w1 [index] w2 [shards]) ->
    fetchLoop World Body parseURL (http.ClientDo World Body roundTrip) decode
      endpoint (pre ++ index :: post) n [] = (n', (x, Some e)) ->
    offender e = index.

(** ** Further inputs of the size parser *)

(** A decimal numeral without a sign. *)
Definition unsignedNumeral (s : string) : bool :=
  numeralBody (bytes s) false false.

(** A string of ASCII white space only. *)
Definition asciiSpaces (s : string) : bool :=
  forallb (fun c => strings.asciiSpace (code c)) (bytes s).

(** A string that starts and ends with a byte at which trimming stops. *)
Definition framed (s : string) : bool :=
  match bytes s with
  | [] => false
  | c :: t => plain c && plain (last t c)
  end.

(** A normal float64: a mantissa of 53 bits and an exponent in range. *)
Definition normal (x : float64.t) : bool :=
  match x with
  | S754_finite _ m e =>
      ((Zpos (digits2_pos m) =? 53) && (-1074 <=? e) && (e <=? 971))%Z
  | _ => false
  end.

(** ** The registration of the callback *)
Module metrics.

Section Registration.

(** The surroundings of the callback, as in [Collector]. *)
Variable World : Type.
Variable Body : Type.
Variable parseURL : string -> option error.
Variable clientDo : World -> Request -> World * (Body + error).
Variable decode : Body -> list ShardInfo * option error.
Variable endpoint : string.

(** The meter of the collector.  [Meter] is the state of [c.meter],
    [Instrument] an observable gauge; [Float64ObservableGauge] is the
    method of that name given the name, the description and the unit,
    [RegisterCallback] the method of that name given the function and the
    one instrument (the registration it returns is dropped by the
    caller). *)
Variable Meter : Type.
Variable Instrument : Type.

(** A function registered with the meter. *)
Definition Callback : Type :=
  Net World -> Net World * (list Observation * option error).

Variable Float64ObservableGauge :
  Meter -> string -> string -> string -> Meter * (Instrument + error).
Variable RegisterCallback :
  Meter -> Callback -> Instrument -> Meter * option error.

(** A call made on [c.meter], with what it returned. *)
Inductive MeterCall : Type :=
| GaugeCall (name description unit : string) (result : Instrument + error)
| RegisterCall (f : Callback) (instrument : Instrument)
               (result : option error).

(** The meter together with the calls made on it so far, oldest first. *)
Record Sdk : Type := mkSdk {
  meter : Meter;
  calls : list MeterCall
}.

(** [func (c *ShardCollector) CollectMetrics(ctx) error] *)
Definition CollectMetrics (s : Sdk) : Sdk * option error :=
  match Float64ObservableGauge (meter s) "opensearch.shard.store.size"
          "Size of the shard store in bytes" "bytes" with
  | (m, inr err) =>
      (mkSdk m
         (calls s ++
          [GaugeCall "opensearch.shard.store.size"
             "Size of the shard store in bytes" "bytes" (inr err)]),
       Some (wrapError "failed to create store size gauge: " err))
  | (m, inl shardStoreSize) =>
      let f := callback World Body parseURL clientDo decode endpoint in
      let (m', err) := RegisterCallback m f shardStoreSize in
      (mkSdk m'
         (calls s ++
          [GaugeCall "opensearch.shard.store.size"
             "Size of the shard store in bytes" "bytes" (inl shardStoreSize);
           RegisterCall f shardStoreSize err]),
       err)
  end.

(** The loop of [main] over [k] ticks of the ticker: each tick calls
    [CollectMetrics]; an error is logged and the loop goes on.  (The
    context of [main] is [context.Background()], whose [Done] channel is
    never ready: the loop takes no other branch.)  [log] holds the errors
    logged so far. *)
Fixpoint ticks (k : nat) (s : Sdk) (log : list error) : Sdk * list error :=
  match k with
  | O => (s, log)
  | S k' =>
      match CollectMetrics s with
      | (s', Some err) => ticks k' s' (log ++ [err])
      | (s', None) => ticks k' s' log
      end
  end.

(** How many gauges were asked for, and how many of them were made. *)
Fixpoint gauges (l : list MeterCall) : nat :=
  match l with
  | [] => O
  | GaugeCall _ _ _ _ :: l' => S (gauges l')
  | RegisterCall _ _ _ :: l' => gauges l'
  end.

Fixpoint gaugesMade (l : list MeterCall) : nat :=
  match l with
  | [] => O
  | GaugeCall _ _ _ (inl _) :: l' => S (gaugesMade l')
  | _ :: l' => gaugesMade l'
  end.

(** How many times [RegisterCallback] was called, and how many of the
    calls registered the callback: those that returned no error. *)
Fixpoint attempts (l : list MeterCall) : nat :=
  match l with
  | [] => O
  | RegisterCall _ _ _ :: l' => S (attempts l')
  | GaugeCall _ _ _ _ :: l' => attempts l'
  end.

Fixpoint registered (l : list MeterCall) : nat :=
  match l with
  | [] => O
  | RegisterCall _ _ None :: l' => S (registered l')
  | _ :: l' => registered l'
  end.

(** A call as [CollectMetrics] makes them: for the gauge of the store
    size, or to register the callback of the package with a gauge; the
    result is what the method of the meter returned. *)
Definition collectCall (c : MeterCall) : Prop :=
  match c with
  | GaugeCall name description unit result =>
      name = "opensearch.shard.store.size" /\
      description = "Size of the shard store in bytes" /\ unit = "bytes" /\
      exists m, snd (Float64ObservableGauge m name description unit) = result
  | RegisterCall f instrument result =>
      f = callback World Body parseURL clientDo decode endpoint /\
      exists m, snd (RegisterCallback m f instrument) = result
  end.

End Registration.

Arguments meter {World Meter Instrument}.
Arguments calls {World Meter Instrument}.
Arguments mkSdk {World Meter Instrument}.
Arguments gauges {World Instrument}.
Arguments gaugesMade {World Instrument}.
Arguments attempts {World Instrument}.
Arguments registered {World Instrument}.

End metrics.

Import metrics.

(** A stub meter: its state counts the gauges made, a gauge is its number;
    [gaugeFails] and [registerFails] say at which counts the two methods
    fail. *)
Module StubMeter.

Definition Meter : Type := nat.
Definition Instrument : Type := nat.

Definition exists_ : error := errorString "instrument already exists".
Definition rejected : error := errorString "callback rejected".

Definition Float64ObservableGauge (gaugeFails : nat -> bool) (m : Meter)
           (name description unit : string) : Meter * (Instrument + error) :=
  (S m, if gaugeFails m then inr exists_ else inl m).

Definition RegisterCallback (registerFails : nat -> bool) (m : Meter)
           (f : Callback Stub.World) (i : Instrument) : Meter * option error :=
  (m, if registerFails i then Some rejected else None).

Definition never (_ : nat) : bool := false.

Definition start : Sdk Stub.World Meter Instrument := mkSdk O [].

Definition run (gaugeFails registerFails : nat -> bool) (k : nat) :=
  ticks Stub.World Stub.Body Stub.parseURL (Stub.clientDo Stub.healthy)
    Stub.decode Stub.endpoint Meter Instrument
    (Float64ObservableGauge gaugeFails) (RegisterCallback registerFails)
    k start [].

End StubMeter.

(** A cluster whose second index holds an unassigned shard without a
    size. *)
Module StubBlank.

Definition unassigned : ShardInfo :=
  mkShardInfo "otlp-logs" "1" "r" "UNASSIGNED" "" "" "" "".

Definition serve (url : string) : Stub.Body + error :=
  if String.eqb url Stub.metricsURL then inl ([Stub.m0], None)
  else if String.eqb url Stub.logsURL then inl ([unassigned; Stub.l0], None)
  else inr Stub.refused.

End StubBlank.

(** * Properties *)

(** ** Bytes, slices and suffixes *)

Lemma code_inj (a b : byte) : code a = code b -> a = b.
Proof.
  unfold code. intros H. apply N2Z.inj in H.
  rewrite <- (ascii_N_embedding a), <- (ascii_N_embedding b). now rewrite H.
Qed.

Lemma byte_eqb_eq (a b : byte) : byte_eqb a b = true <-> a = b.
Proof.
  unfold byte_eqb. rewrite Z.eqb_eq. split; [apply code_inj | now intros ->].
Qed.

Lemma bytes_eqb_eq (a b : list byte) : bytes_eqb a b = true <-> a = b.
Proof.
  revert b. induction a as [|x a IH]; intros [|y b]; simpl;
    try (split; [discriminate | discriminate]); try tauto.
  rewrite andb_true_iff, byte_eqb_eq, IH. split.
  - now intros [-> ->].
  - intros H. now inversion H.
Qed.

Lemma str_bytes (s : string) : str (bytes s) = s.
Proof. apply string_of_list_ascii_of_string. Qed.

Lemma bytes_str (l : list byte) : bytes (str l) = l.
Proof. apply list_ascii_of_string_of_list_ascii. Qed.

Lemma bytes_app (a b : string) : bytes (a ++ b) = (bytes a ++ bytes b)%list.
Proof. induction a as [|c a IH]; simpl; [reflexivity | now rewrite IH]. Qed.

Lemma bytes_inj (a b : string) : bytes a = bytes b -> a = b.
Proof. intros H. rewrite <- (str_bytes a), <- (str_bytes b). now rewrite H. Qed.

Lemma len_app (a b : list byte) : len (a ++ b) = (len a + len b)%Z.
Proof. unfold len. rewrite length_app. lia. Qed.

Lemma len_nonneg (a : list byte) : (0 <= len a)%Z.
Proof. unfold len. lia. Qed.

Lemma slice_suffix (a x : list byte) :
  slice (a ++ x) (len (a ++ x) - len x) (len (a ++ x)) = x.
Proof.
  unfold slice. rewrite len_app.
  replace (len a + len x - len x)%Z with (len a) by lia.
  replace (len a + len x - len a)%Z with (len x) by lia.
  unfold len. rewrite !Nat2Z.id, skipn_app, skipn_all, Nat.sub_diag. simpl.
  apply firstn_all.
Qed.

Lemma slice_prefix (a x : list byte) :
  slice (a ++ x) 0 (len (a ++ x) - len x) = a.
Proof.
  unfold slice. rewrite len_app.
  replace (len a + len x - len x - 0)%Z with (len a) by lia.
  unfold len. rewrite Nat2Z.id. simpl.
  rewrite firstn_app, firstn_all, Nat.sub_diag. simpl. apply app_nil_r.
Qed.

Lemma slice_split (s : list byte) (k : Z) :
  (0 <= k <= len s)%Z ->
  s = (slice s 0 (len s - k) ++ slice s (len s - k) (len s))%list.
Proof.
  intros Hk. unfold slice.
  replace (len s - k - 0)%Z with (len s - k)%Z by lia.
  replace (len s - (len s - k))%Z with k by lia. simpl.
  rewrite <- (firstn_skipn (Z.to_nat (len s - k)) s) at 1. f_equal.
  symmetry. apply firstn_all2. rewrite length_skipn. unfold len in *. lia.
Qed.

(** [HasSuffix] holds exactly of the strings that end with the suffix. *)
Lemma HasSuffix_iff (s x : string) :
  strings.HasSuffix s x = true <-> exists a, s = a ++ x.
Proof.
  unfold strings.HasSuffix. rewrite andb_true_iff, Z.leb_le, bytes_eqb_eq.
  split.
  - intros [Hlen Heq]. exists (str (slice (bytes s) 0 (len (bytes s) - len (bytes x)))).
    apply bytes_inj. rewrite bytes_app, bytes_str.
    etransitivity; [apply (slice_split _ (len (bytes x))) | now f_equal].
    pose proof (len_nonneg (bytes x)). lia.
  - intros [a ->]. rewrite bytes_app. split.
    + rewrite len_app. pose proof (len_nonneg (bytes a)). lia.
    + apply slice_suffix.
Qed.

Lemma HasSuffix_app (a x : string) : strings.HasSuffix (a ++ x) x = true.
Proof. apply HasSuffix_iff. now exists a. Qed.

Lemma TrimSuffix_app (a x : string) : strings.TrimSuffix (a ++ x) x = a.
Proof.
  unfold strings.TrimSuffix. rewrite HasSuffix_app, bytes_app, slice_prefix.
  apply str_bytes.
Qed.

Lemma app_eq_tail {A : Type} (a a' x y : list A) :
  List.length x = List.length y -> (a ++ x = a' ++ y)%list -> x = y.
Proof.
  intros Hl H.
  assert (Ha : List.length a = List.length a').
  { apply (f_equal (@List.length A)) in H. rewrite !length_app in H. lia. }
  apply (f_equal (skipn (List.length a))) in H.
  rewrite skipn_app, skipn_all, Nat.sub_diag in H. simpl in H.
  rewrite Ha, skipn_app, skipn_all, Nat.sub_diag in H. exact H.
Qed.

Lemma length_bytes (s : string) : List.length (bytes s) = String.length s.
Proof. induction s as [|c s IH]; simpl; [reflexivity | now rewrite IH]. Qed.

(** Two suffixes of the same length that differ cannot both end a string. *)
Lemma HasSuffix_other (a x y : string) :
  String.length x = String.length y -> x <> y ->
  strings.HasSuffix (a ++ x) y = false.
Proof.
  intros Hlen Hne. destruct (strings.HasSuffix (a ++ x) y) eqn:E; [|reflexivity].
  apply HasSuffix_iff in E. destruct E as [a' E]. exfalso. apply Hne.
  apply (f_equal bytes) in E. rewrite !bytes_app in E.
  apply bytes_inj.
  apply (app_eq_tail (bytes a) (bytes a') (bytes x) (bytes y));
    [rewrite !length_bytes; exact Hlen | exact E].
Qed.

(** ** Trimming *)

Lemma scanStart_plain (c : byte) (t : list byte) :
  plain c = true -> strings.scanStart (c :: t) = (false, c :: t).
Proof.
  unfold plain. rewrite andb_true_iff, negb_true_iff, Z.ltb_lt.
  intros [Hlt Hsp]. simpl. rewrite Hsp.
  destruct (Z.leb_spec utf8.RuneSelf (code c)); [lia | reflexivity].
Qed.

Lemma scanStop_plain (c : byte) (t : list byte) :
  plain c = true -> strings.scanStop (c :: t) = (false, c :: t).
Proof.
  unfold plain. rewrite andb_true_iff, negb_true_iff, Z.ltb_lt.
  intros [Hlt Hsp]. simpl. rewrite Hsp.
  destruct (Z.leb_spec utf8.RuneSelf (code c)); [lia | reflexivity].
Qed.

(** A string that starts and ends with such a byte is left as it is. *)
Lemma TrimSpace_bytes_plain (c d : byte) (m : list byte) :
  plain c = true -> plain d = true ->
  strings.TrimSpace_bytes (c :: m ++ [d]) = (c :: m ++ [d])%list.
Proof.
  intros Hc Hd. unfold strings.TrimSpace_bytes.
  rewrite (scanStart_plain _ _ Hc).
  assert (Hrev : rev (c :: m ++ [d]) = (d :: rev (c :: m))%list)
    by apply (rev_unit (c :: m) d).
  rewrite Hrev, (scanStop_plain _ _ Hd), <- Hrev.
  apply rev_involutive.
Qed.

Lemma DecodeRune_size_nonneg (s : list byte) :
  (0 <= snd (utf8.DecodeRuneInString s))%Z.
Proof.
  unfold utf8.DecodeRuneInString.
  repeat match goal with
         | |- context [match ?x with _ => _ end] => destruct x
         end; simpl; lia.
Qed.

Lemma DecodeRune_ascii (c : byte) (t : list byte) :
  (code c <? utf8.RuneSelf)%Z = true ->
  utf8.DecodeRuneInString (c :: t) = (code c, 1%Z).
Proof. intros H. unfold utf8.DecodeRuneInString. now rewrite H. Qed.

(** Where [indexFunc] starts counting has no bearing on whether it finds a
    rune. *)
Lemma indexFunc_from_none (f : Z -> bool) (truth : bool) (fuel : nat) :
  forall (s : list byte) (i j : Z),
    (0 <= i)%Z -> (0 <= j)%Z ->
    strings.indexFunc_from fuel s f truth i = (-1)%Z ->
    strings.indexFunc_from fuel s f truth j = (-1)%Z.
Proof.
  induction fuel as [|fuel IH]; intros s i j Hi Hj; simpl; [reflexivity|].
  destruct s as [|c t]; [reflexivity|].
  pose proof (DecodeRune_size_nonneg (c :: t)) as Hsz.
  destruct (utf8.DecodeRuneInString (c :: t)) as [r size]. simpl in Hsz.
  destruct (Bool.eqb (f r) truth).
  - intros ->. lia.
  - apply IH; lia.
Qed.

Lemma code_nonneg (c : byte) : (0 <= code c)%Z.
Proof. unfold code. lia. Qed.

Lemma DecodeRune_size_pos (c : byte) (t : list byte) :
  (1 <= snd (utf8.DecodeRuneInString (c :: t)))%Z.
Proof.
  unfold utf8.DecodeRuneInString.
  repeat match goal with
         | |- context [match ?x with _ => _ end] => destruct x
         end; simpl; lia.
Qed.

(** The fuel of [indexFunc], the length of the string, is enough: every
    step takes at least one byte, and more fuel changes nothing. *)
Lemma indexFunc_from_fuel (f : Z -> bool) (truth : bool) (fuel : nat) :
  forall (s : list byte) (i : Z),
    (List.length s <= fuel)%nat ->
    strings.indexFunc_from (S fuel) s f truth i =
    strings.indexFunc_from fuel s f truth i.
Proof.
  induction fuel as [|fuel IH]; intros s i Hlen.
  - destruct s; [reflexivity | simpl in Hlen; lia].
  - destruct s as [|c t]; [reflexivity|].
    change (strings.indexFunc_from (S (S fuel)) (c :: t) f truth i) with
      (let (r, size) := utf8.DecodeRuneInString (c :: t) in
       if Bool.eqb (f r) truth then i
       else strings.indexFunc_from (S fuel) (skipn (Z.to_nat size) (c :: t))
              f truth (i + size)).
    change (strings.indexFunc_from (S fuel) (c :: t) f truth i) with
      (let (r, size) := utf8.DecodeRuneInString (c :: t) in
       if Bool.eqb (f r) truth then i
       else strings.indexFunc_from fuel (skipn (Z.to_nat size) (c :: t))
              f truth (i + size)).
    pose proof (DecodeRune_size_pos c t) as Hsz.
    destruct (utf8.DecodeRuneInString (c :: t)) as [r size]. simpl in Hsz.
    destruct (Bool.eqb (f r) truth); [reflexivity|].
    apply IH. rewrite length_skipn.
    change (List.length (c :: t)) with (S (List.length t)) in *. lia.
Qed.

Lemma findStart_le (fuel : nat) (s : list byte) :
  forall start lim : Z, (utf8.findStart fuel s start lim <= start)%Z.
Proof.
  induction fuel as [|fuel IH]; intros start lim; simpl; [lia|].
  destruct (start <? lim)%Z; [lia|].
  destruct (utf8.RuneStart _); [lia|].
  specialize (IH (start - 1)%Z lim). lia.
Qed.

Lemma DecodeLastRune_size_pos (s : list byte) :
  s <> [] -> (1 <= snd (utf8.DecodeLastRuneInString s))%Z.
Proof.
  intros Hne. unfold utf8.DecodeLastRuneInString.
  assert (Hlen : (1 <= len s)%Z)
    by (destruct s; [congruence | unfold len; simpl; lia]).
  destruct (Z.eqb_spec (len s) 0); [lia|].
  destruct (_ <? utf8.RuneSelf)%Z; [simpl; lia|].
  pose proof (findStart_le 4 s (len s - 1 - 1)
                (Z.max (len s - utf8.UTFMax) 0)) as Hst.
  destruct (utf8.DecodeRuneInString _) as [r size].
  match goal with
  | |- context [if negb (?a =? ?b)%Z then _ else _] =>
      destruct (Z.eqb_spec a b) as [E|E]
  end; simpl; lia.
Qed.

Lemma length_slice (s : list byte) (i : Z) :
  (0 <= i <= len s)%Z -> len (slice s 0 i) = i.
Proof.
  intros H. unfold slice, len in *. simpl.
  rewrite length_firstn. replace (i - 0)%Z with i by lia. lia.
Qed.

(** The same for [lastIndexFunc]: from an index within the string, every
    step goes back by at least one byte. *)
Lemma lastIndexFunc_from_fuel (f : Z -> bool) (truth : bool) (s : list byte)
      (fuel : nat) :
  forall i : Z,
    (i <= len s)%Z -> (i <= Z.of_nat fuel)%Z ->
    strings.lastIndexFunc_from (S fuel) s f truth i =
    strings.lastIndexFunc_from fuel s f truth i.
Proof.
  induction fuel as [|fuel IH]; intros i His Hif.
  - simpl. destruct (Z.leb_spec i 0); [reflexivity | lia].
  - change (strings.lastIndexFunc_from (S (S fuel)) s f truth i) with
      (if (i <=? 0)%Z then (-1)%Z
       else
         let (r, size) := utf8.DecodeLastRuneInString (slice s 0 i) in
         if Bool.eqb (f r) truth then (i - size)%Z
         else strings.lastIndexFunc_from (S fuel) s f truth (i - size)).
    change (strings.lastIndexFunc_from (S fuel) s f truth i) with
      (if (i <=? 0)%Z then (-1)%Z
       else
         let (r, size) := utf8.DecodeLastRuneInString (slice s 0 i) in
         if Bool.eqb (f r) truth then (i - size)%Z
         else strings.lastIndexFunc_from fuel s f truth (i - size)).
    destruct (Z.leb_spec i 0) as [|Hpos]; [reflexivity|].
    assert (Hne : slice s 0 i <> []).
    { intros E. pose proof (length_slice s i ltac:(lia)) as Hl.
      rewrite E in Hl. unfold len in Hl. simpl in Hl. lia. }
    pose proof (DecodeLastRune_size_pos _ Hne) as Hsz.
    destruct (utf8.DecodeLastRuneInString (slice s 0 i)) as [r size].
    simpl in Hsz. destruct (Bool.eqb (f r) truth); [reflexivity|].
    apply IH; lia.
Qed.

Lemma indexFunc_from_ascii (f : Z -> bool) (truth : bool) (fuel : nat)
      (c : byte) (t : list byte) (i : Z) :
  (code c <? utf8.RuneSelf)%Z = true ->
  strings.indexFunc_from (S fuel) (c :: t) f truth i =
  if Bool.eqb (f (code c)) truth then i
  else strings.indexFunc_from fuel t f truth (i + 1).
Proof.
  intros H. cbn [strings.indexFunc_from].
  rewrite (DecodeRune_ascii c t H). reflexivity.
Qed.

Lemma asciiSpace_from_IsSpace (c : Z) :
  (0 <= c < utf8.RuneSelf)%Z -> unicode.IsSpace c = true ->
  strings.asciiSpace c = true.
Proof.
  unfold strings.asciiSpace, unicode.IsSpace, unicode.MaxLatin1, utf8.RuneSelf.
  intros Hc.
  replace ((0 <=? c) && (c <=? 255))%Z with true
    by (symmetry; apply andb_true_iff; rewrite !Z.leb_le; lia).
  rewrite !orb_true_iff, !andb_true_iff, !Z.leb_le, !Z.eqb_eq. lia.
Qed.

(** A string without a rune that is not a space trims to the empty
    string. *)
Lemma TrimSpace_bytes_onlySpace (s : list byte) :
  strings.indexFunc s unicode.IsSpace false = (-1)%Z ->
  strings.TrimSpace_bytes s = [].
Proof.
  induction s as [|c t IH]; intros H; [reflexivity|].
  unfold strings.TrimSpace_bytes. cbn [strings.scanStart].
  destruct (Z.leb_spec utf8.RuneSelf (code c)) as [Hhi|Hlo].
  - unfold strings.TrimFunc, strings.TrimLeftFunc. rewrite H. reflexivity.
  - assert (Hasc : (code c <? utf8.RuneSelf)%Z = true) by (apply Z.ltb_lt; lia).
    unfold strings.indexFunc in H. cbn [List.length] in H.
    rewrite (indexFunc_from_ascii _ _ _ _ _ _ Hasc) in H.
    destruct (unicode.IsSpace (code c)) eqn:Hsp; cbn [Bool.eqb] in H.
    + rewrite (asciiSpace_from_IsSpace _ (conj (code_nonneg c) Hlo) Hsp).
      apply IH. unfold strings.indexFunc.
      apply (indexFunc_from_none _ _ _ _ (0 + 1)%Z 0%Z); [lia | lia | exact H].
    + discriminate H.
Qed.

Lemma TrimSpace_onlySpace (s : string) :
  onlySpace s = true -> strings.TrimSpace s = "".
Proof.
  unfold onlySpace, strings.TrimSpace. rewrite Z.eqb_eq. intros H.
  now rewrite (TrimSpace_bytes_onlySpace _ H).
Qed.

(** ** Parsing the number *)

(** Every error of [ParseFloat] is a [NumError] for [ParseFloat] that holds
    the string given, with [ErrSyntax] or [ErrRange]. *)
Lemma ParseFloat_error (s : string) (f : float64.t) (e : error) :
  strconv.ParseFloat s = (f, Some e) ->
  e = NumError "ParseFloat" s strconv.ErrSyntax \/
  e = NumError "ParseFloat" s strconv.ErrRange.
Proof.
  unfold strconv.ParseFloat, strconv.atof64.
  destruct (strconv.special (bytes s)) as [[v n] [|]].
  - destruct (negb (n =? len (bytes s))%Z && negb (strconv.isSyntax None));
      intros H; inversion H; now left.
  - destruct (strconv.readFloat (bytes s)) as [num|].
    + destruct (strconv.convert num) as [g [|]];
        match goal with
        | |- (if ?b then _ else _) = _ -> _ => destruct b
        end; intros H; inversion H; auto.
    + match goal with
      | |- (if ?b then _ else _) = _ -> _ => destruct b
      end; intros H; inversion H; now left.
Qed.

Lemma numeralBody_head (b : byte) (t : list byte) (sd sg : bool) :
  numeralBody (b :: t) sd sg = true -> numeralByte (code b).
Proof.
  unfold numeralByte. simpl. unfold strconv.isDigit.
  destruct (Z.leb_spec 48 (code b)), (Z.leb_spec (code b) 57),
    (Z.eqb_spec (code b) 46); simpl; try discriminate; lia.
Qed.

Lemma numeralBody_tail (b : byte) (t : list byte) (sd sg : bool) :
  numeralBody (b :: t) sd sg = true ->
  exists sd' sg', numeralBody t sd' sg' = true.
Proof.
  change (numeralBody (b :: t) sd sg) with
    (if strconv.isDigit (code b) then numeralBody t sd true
     else if (code b =? 46)%Z then
            if sd then false else numeralBody t true sg
          else false).
  destruct (strconv.isDigit (code b)); [eauto|].
  destruct (code b =? 46)%Z; [|discriminate].
  destruct sd; [discriminate | eauto].
Qed.

Lemma numeralByte_cases (c : Z) :
  numeralByte c ->
  (c = 46 \/ c = 48 \/ c = 49 \/ c = 50 \/ c = 51 \/ c = 52 \/ c = 53 \/
   c = 54 \/ c = 55 \/ c = 56 \/ c = 57)%Z.
Proof. unfold numeralByte. lia. Qed.

Lemma numeralByte_not_x (c : Z) :
  numeralByte c -> (strconv.lower c =? 120)%Z = false.
Proof.
  intros H. apply numeralByte_cases in H.
  repeat (destruct H as [-> | H]; [reflexivity|]). now subst.
Qed.

Lemma numeralByte_not_e (c : Z) :
  numeralByte c -> (strconv.lower c =? 101)%Z = false.
Proof.
  intros H. apply numeralByte_cases in H.
  repeat (destruct H as [-> | H]; [reflexivity|]). now subst.
Qed.

Lemma commonPrefix_numeral (b p : byte) (t q : list byte) :
  numeralByte (code b) -> (96 < code p)%Z ->
  strconv.commonPrefixLenIgnoreCase (b :: t) (p :: q) = 0%Z.
Proof.
  unfold numeralByte. intros Hb Hp. cbn [strconv.commonPrefixLenIgnoreCase].
  destruct (Z.leb_spec 65 (code b)); cbn [andb].
  - exfalso. lia.
  - destruct (Z.eqb_spec (code b) (code p)); [lia | reflexivity].
Qed.

(** The digit loop reads the whole body of a decimal numeral, sees a digit
    and no underscore. *)
Lemma readDigits_numeral (s : list byte) :
  forall d : strconv.digits,
    numeralBody s (strconv.sawdot d) (strconv.sawdigits d) = true ->
    exists d',
      strconv.readDigits 10 s d = (d', []) /\
      strconv.sawdigits d' = true /\
      strconv.underscores d' = strconv.underscores d.
Proof.
  induction s as [|b t IH]; intros d H.
  - exists d. simpl in H. auto.
  - pose proof (numeralBody_head _ _ _ _ H) as Hb.
    cbn [numeralBody] in H. cbn [strconv.readDigits].
    unfold numeralByte in Hb.
    destruct (Z.eqb_spec (code b) 95) as [E|_]; [exfalso; lia|].
    destruct (Z.eqb_spec (code b) 46) as [E|NE].
    + assert (Hd : strconv.isDigit (code b) = false).
      { unfold strconv.isDigit. rewrite E. reflexivity. }
      rewrite Hd in H. destruct (strconv.sawdot d); [discriminate|].
      destruct (IH (strconv.mkDigits true (strconv.sawdigits d) (strconv.nd d)
                      (strconv.nd d) (strconv.mant d) (strconv.underscores d)) H)
        as [d' [H1 [H2 H3]]].
      exists d'. auto.
    + assert (Hd : strconv.isDigit (code b) = true).
      { unfold strconv.isDigit. apply andb_true_iff. rewrite !Z.leb_le. lia. }
      rewrite Hd in H |- *.
      destruct ((code b =? 48)%Z && (strconv.nd d =? 0)%Z).
      * destruct (IH (strconv.mkDigits (strconv.sawdot d) true (strconv.nd d)
                        (strconv.dp d - 1) (strconv.mant d)
                        (strconv.underscores d)) H) as [d' [H1 [H2 H3]]].
        exists d'. auto.
      * destruct (IH (strconv.mkDigits (strconv.sawdot d) true
                        (strconv.nd d + 1) (strconv.dp d)
                        (strconv.mant d * 10 + (code b - 48))
                        (strconv.underscores d)) H) as [d' [H1 [H2 H3]]].
        exists d'. auto.
Qed.

Lemma infOf_numeral (sign nsign : Z) (s : list byte) :
  numeralBody s false false = true ->
  strconv.infOf sign nsign s = (float64.zero, 0%Z, false).
Proof.
  destruct s as [|b t]; intros H; [discriminate|].
  unfold strconv.infOf.
  change (bytes "infinity") with ("i"%char :: bytes "nfinity").
  rewrite (commonPrefix_numeral b _ t _ (numeralBody_head _ _ _ _ H));
    [reflexivity | vm_compute; reflexivity].
Qed.

(** A decimal numeral is none of the special values. *)
Lemma special_numeral (s : string) :
  decimalNumeral s = true ->
  exists v n, strconv.special (bytes s) = (v, n, false).
Proof.
  unfold decimalNumeral, strconv.special.
  destruct (bytes s) as [|b t]; [discriminate|].
  destruct (Z.eqb_spec (code b) 43) as [E|N1]; cbn [orb].
  - intros H. rewrite (infOf_numeral _ _ _ H). eauto.
  - destruct (Z.eqb_spec (code b) 45) as [E|N2]; cbn [orb].
    + intros H. rewrite (infOf_numeral _ _ _ H). eauto.
    + intros H. pose proof (numeralBody_head _ _ _ _ H) as Hb.
      unfold numeralByte in Hb.
      destruct (Z.eqb_spec (code b) 105); [exfalso; lia|].
      destruct (Z.eqb_spec (code b) 73); [exfalso; lia|].
      destruct (Z.eqb_spec (code b) 110); [exfalso; lia|].
      destruct (Z.eqb_spec (code b) 78); [exfalso; lia|].
      cbn [orb]. eauto.
Qed.

Lemma readBase_numeral (s : list byte) (sd sg : bool) :
  numeralBody s sd sg = true -> strconv.readBase s = (false, s).
Proof.
  destruct s as [|b0 [|b1 [|b2 t]]]; try reflexivity.
  intros H. cbn [strconv.readBase].
  assert (Hb1 : numeralByte (code b1)).
  { destruct (numeralBody_tail _ _ _ _ H) as [sd' [sg' H']].
    exact (numeralBody_head _ _ _ _ H'). }
  rewrite (numeralByte_not_x _ Hb1), andb_false_r. reflexivity.
Qed.

(** [readFloat] accepts a decimal numeral and reads all of it. *)
Lemma readFloat_numeral (s : string) :
  decimalNumeral s = true ->
  exists num,
    strconv.readFloat (bytes s) = Some num /\
    strconv.read num = len (bytes s) /\ strconv.hex num = false.
Proof.
  unfold decimalNumeral. destruct (bytes s) as [|b t] eqn:Es; [discriminate|].
  intros H.
  assert (Hbody : exists neg body,
             strconv.readSign (b :: t) = (neg, body) /\
             numeralBody body false false = true).
  { unfold strconv.readSign.
    destruct (Z.eqb_spec (code b) 43); cbn [orb] in H; [eauto|].
    destruct (Z.eqb_spec (code b) 45); cbn [orb] in H; eauto. }
  destruct Hbody as [neg [body [Hsign Hbody]]].
  unfold strconv.readFloat. rewrite Hsign.
  rewrite (readBase_numeral _ _ _ Hbody).
  destruct (readDigits_numeral body strconv.digits0 Hbody) as [d [Hd [Hsaw Hus]]].
  rewrite Hd, Hsaw. cbn [negb strconv.readExponent].
  rewrite Hus. cbn [strconv.underscores strconv.digits0 andb].
  eexists. split; [reflexivity|]. cbn [strconv.read strconv.hex len List.length].
  split; [|reflexivity]. unfold len. simpl. lia.
Qed.

(** [ParseFloat] never finds a syntax error in a decimal numeral: it gives a
    value, or the range error. *)
Lemma ParseFloat_numeral (s : string) :
  decimalNumeral s = true ->
  exists f,
    strconv.ParseFloat s = (f, None) \/
    (strconv.ParseFloat s = (f, Some (strconv.rangeError "ParseFloat" s)) /\
     float64.isInf f = true).
Proof.
  intros H. unfold strconv.ParseFloat, strconv.atof64.
  destruct (special_numeral s H) as [v [n ->]].
  destruct (readFloat_numeral s H) as [num [-> [Hread Hhex]]].
  destruct (strconv.convert num) as [f ovf] eqn:Ec.
  rewrite Hread, Z.eqb_refl. cbn [negb andb]. exists f.
  destruct ovf; [right | left; reflexivity].
  split; [reflexivity|].
  unfold strconv.convert in Ec. rewrite Hhex in Ec.
  destruct (strconv.mantissa num); try (inversion Ec; fail).
  destruct (310 <? strconv.point num)%Z; [now inversion Ec|].
  destruct (strconv.point num <? -330)%Z; [now inversion Ec|].
  inversion Ec. congruence.
Qed.

(** ** The size parser *)

Lemma unitPower_cases (u : string) (k : Z) :
  unitPower u = Some k ->
  (u = "kb" /\ k = 10%Z) \/ (u = "mb" /\ k = 20%Z) \/ (u = "gb" /\ k = 30%Z).
Proof.
  unfold unitPower.
  destruct (String.eqb_spec u "kb"); [intros H; inversion H; auto|].
  destruct (String.eqb_spec u "mb"); [intros H; inversion H; auto|].
  destruct (String.eqb_spec u "gb"); [intros H; inversion H; auto|].
  discriminate.
Qed.

(** A string that ends with one of the three units takes the branch of
    that unit: the others do not match it. *)
Lemma unitOf_suffix (t u : string) (k : Z) :
  unitPower u = Some k -> strings.HasSuffix t u = true ->
  unitOf t = Some (float64.ofZ (2 ^ k), strings.TrimSuffix t u) /\ t <> "".
Proof.
  intros Hu Hs. pose proof Hs as Hs'. apply HasSuffix_iff in Hs'.
  destruct Hs' as [a ->]. split.
  - unfold unitOf.
    destruct (unitPower_cases _ _ Hu) as [[-> ->] | [[-> ->] | [-> ->]]].
    + rewrite Hs. reflexivity.
    + rewrite (HasSuffix_other a "mb" "kb") by (reflexivity || discriminate).
      rewrite Hs. reflexivity.
    + rewrite (HasSuffix_other a "gb" "kb") by (reflexivity || discriminate).
      rewrite (HasSuffix_other a "gb" "mb") by (reflexivity || discriminate).
      rewrite Hs. reflexivity.
  - destruct (unitPower_cases _ _ Hu) as [[-> _] | [[-> _] | [-> _]]];
      destruct a; discriminate.
Qed.

Lemma eqb_empty_false (t : string) : t <> "" -> String.eqb t "" = false.
Proof. intros H. now apply String.eqb_neq. Qed.

(** A decimal numeral starts with a byte at which trimming stops. *)
Lemma decimalNumeral_head (s : string) :
  decimalNumeral s = true ->
  exists b t, bytes s = (b :: t)%list /\ plain b = true.
Proof.
  unfold decimalNumeral. destruct (bytes s) as [|b t]; [discriminate|].
  intros H. exists b, t. split; [reflexivity|].
  assert (Hb : (code b = 43 \/ code b = 45 \/ numeralByte (code b))%Z).
  { destruct (Z.eqb_spec (code b) 43); [auto|].
    destruct (Z.eqb_spec (code b) 45); [auto|].
    cbn [orb] in H. right. right. exact (numeralBody_head _ _ _ _ H). }
  unfold plain, strings.asciiSpace, utf8.RuneSelf, numeralByte in *.
  apply andb_true_iff. rewrite Z.ltb_lt, negb_true_iff, orb_false_iff,
    andb_false_iff, !Z.leb_gt, Z.eqb_neq. lia.
Qed.

(** A decimal numeral followed by a unit has nothing to trim. *)
Lemma TrimSpace_numeral_unit (num u : string) (k : Z) :
  decimalNumeral num = true -> unitPower u = Some k ->
  strings.TrimSpace (num ++ u) = num ++ u.
Proof.
  intros Hn Hu. destruct (decimalNumeral_head _ Hn) as [b [t [Hb Hp]]].
  assert (Hu' : exists c, bytes u = [c; "b"%char]).
  { destruct (unitPower_cases _ _ Hu) as [[-> _] | [[-> _] | [-> _]]];
      eexists; reflexivity. }
  destruct Hu' as [c Hc].
  assert (Hl : bytes (num ++ u) = (b :: (t ++ [c]) ++ ["b"%char])%list).
  { rewrite bytes_app, Hb, Hc. simpl. now rewrite <- app_assoc. }
  unfold strings.TrimSpace.
  replace (strings.TrimSpace_bytes (bytes (num ++ u))) with (bytes (num ++ u));
    [apply str_bytes|].
  rewrite Hl. symmetry. apply TrimSpace_bytes_plain; [exact Hp | reflexivity].
Qed.

Lemma unitPower_suffix (num u : string) (k : Z) :
  unitPower u = Some k ->
  unitOf (num ++ u) = Some (float64.ofZ (2 ^ k), num).
Proof.
  intros Hu.
  destruct (unitOf_suffix (num ++ u) u k Hu (HasSuffix_app num u)) as [H _].
  now rewrite H, TrimSuffix_app.
Qed.

(** C1, as the code has it.  For a decimal numeral [num] that [ParseFloat]
    does not find out of range, followed by the unit kb, mb or gb, the
    parser has no error for the numeral and [convertStoreToBytes] returns
    the float64 parsed multiplied by 2^10, 2^20 or 2^30, with no error. *)
Theorem convertStoreToBytes_decimal (num u : string) (k : Z) :
  decimalNumeral num = true ->
  unitPower u = Some k ->
  snd (strconv.ParseFloat num) <> Some (strconv.rangeError "ParseFloat" num) ->
  snd (strconv.ParseFloat num) = None /\
  convertStoreToBytes (num ++ u) =
  (float64.mul (fst (strconv.ParseFloat num)) (float64.ofZ (2 ^ k)), None).
Proof.
  intros Hn Hu Hr.
  destruct (ParseFloat_numeral num Hn) as [f [Hp | [Hp _]]];
    [|rewrite Hp in Hr; now elim Hr].
  split; [now rewrite Hp|].
  unfold convertStoreToBytes.
  rewrite (TrimSpace_numeral_unit num u k Hn Hu).
  rewrite eqb_empty_false
    by (destruct (decimalNumeral_head _ Hn) as [b [t [Hb _]]];
        destruct num; discriminate).
  rewrite (unitPower_suffix num u k Hu), Hp. reflexivity.
Qed.

(** The three sizes of the specification: 512kb is 524288 bytes, 1.5gb is
    1610612736 bytes and 0mb is 0 bytes. *)
Lemma convertStoreToBytes_decimal_examples :
  convertStoreToBytes "512kb" = (float64.ofZ 524288, None) /\
  convertStoreToBytes "1.5gb" = (float64.ofZ 1610612736, None) /\
  convertStoreToBytes "0mb" = (float64.zero, None).
Proof.
  assert (H512 := convertStoreToBytes_decimal "512" "kb" 10 eq_refl eq_refl
                    ltac:(vm_compute; discriminate)).
  assert (H15 := convertStoreToBytes_decimal "1.5" "gb" 30 eq_refl eq_refl
                   ltac:(vm_compute; discriminate)).
  assert (H0 := convertStoreToBytes_decimal "0" "mb" 20 eq_refl eq_refl
                  ltac:(vm_compute; discriminate)).
  destruct H512 as [_ H512], H15 as [_ H15], H0 as [_ H0].
  split; [|split].
  - etransitivity; [exact H512 | vm_compute; reflexivity].
  - etransitivity; [exact H15 | vm_compute; reflexivity].
  - etransitivity; [exact H0 | vm_compute; reflexivity].
Defined.

(** C1 as stated fails for a numeral too large for a float64: the digit 1
    followed by 309 zeros is a decimal numeral, and with the unit kb it is
    refused with the range error of [ParseFloat]. *)
Lemma convertStoreToBytes_decimal_out_of_range :
  decimalNumeral (oneAndZeros 309) = true /\
  unitPower "kb" = Some 10%Z /\
  convertStoreToBytes (oneAndZeros 309 ++ "kb") =
  (float64.zero,
   Some (wrapError "failed to parse size value: "
           (NumError "ParseFloat" (oneAndZeros 309) strconv.ErrRange))).
Proof. vm_compute. auto. Qed.

(** The other case of a decimal numeral: one that [ParseFloat] finds out of
    range is refused with that error. *)
Lemma convertStoreToBytes_decimal_range_error (num u : string) (k : Z) :
  decimalNumeral num = true ->
  unitPower u = Some k ->
  snd (strconv.ParseFloat num) = Some (strconv.rangeError "ParseFloat" num) ->
  convertStoreToBytes (num ++ u) =
  (float64.zero,
   Some (wrapError "failed to parse size value: "
           (strconv.rangeError "ParseFloat" num))).
Proof.
  intros Hn Hu Hr. unfold convertStoreToBytes.
  rewrite (TrimSpace_numeral_unit num u k Hn Hu).
  rewrite eqb_empty_false
    by (destruct (decimalNumeral_head _ Hn) as [b [t [Hb _]]];
        destruct num; discriminate).
  rewrite (unitPower_suffix num u k Hu).
  destruct (strconv.ParseFloat num) as [f err]. simpl in Hr. now subst err.
Qed.

(** C8.  For an input that is empty or has only white space,
    [convertStoreToBytes] returns 0 and no error. *)
Theorem convertStoreToBytes_blank (s : string) :
  onlySpace s = true -> convertStoreToBytes s = (float64.zero, None).
Proof.
  intros H. unfold convertStoreToBytes.
  now rewrite (TrimSpace_onlySpace s H).
Qed.

(** The empty string and three spaces both give 0 and no error. *)
Lemma convertStoreToBytes_blank_examples :
  (onlySpace "" = true /\ convertStoreToBytes "" = (float64.zero, None)) /\
  (onlySpace "   " = true /\ convertStoreToBytes "   " = (float64.zero, None)).
Proof.
  split; (split; [reflexivity|]).
  - apply (convertStoreToBytes_blank ""). reflexivity.
  - apply (convertStoreToBytes_blank "   "). reflexivity.
Defined.

(** C4, as the code has it.  For an input whose trimmed form is not empty
    and ends in none of kb, mb and gb, [convertStoreToBytes] fails with the
    error of the unknown unit, whose message ends with the trimmed input. *)
Theorem convertStoreToBytes_unknown_unit (s : string) :
  strings.TrimSpace s <> "" ->
  strings.HasSuffix (strings.TrimSpace s) "kb" = false ->
  strings.HasSuffix (strings.TrimSpace s) "mb" = false ->
  strings.HasSuffix (strings.TrimSpace s) "gb" = false ->
  convertStoreToBytes s =
  (float64.zero,
   Some (errorString ("unknown size unit in: " ++ strings.TrimSpace s))).
Proof.
  intros Hne Hkb Hmb Hgb. unfold convertStoreToBytes, unitOf.
  now rewrite (eqb_empty_false _ Hne), Hkb, Hmb, Hgb.
Qed.

(** The sizes 10tb and abc of the specification, and a size with spaces
    around it. *)
Lemma convertStoreToBytes_unknown_unit_examples :
  convertStoreToBytes "10tb" =
    (float64.zero, Some (errorString "unknown size unit in: 10tb")) /\
  convertStoreToBytes "abc" =
    (float64.zero, Some (errorString "unknown size unit in: abc")) /\
  convertStoreToBytes "  3.2 tb " =
    (float64.zero, Some (errorString "unknown size unit in: 3.2 tb")).
Proof.
  split; [|split].
  - apply (convertStoreToBytes_unknown_unit "10tb");
      [vm_compute; discriminate | reflexivity | reflexivity | reflexivity].
  - apply (convertStoreToBytes_unknown_unit "abc");
      [vm_compute; discriminate | reflexivity | reflexivity | reflexivity].
  - apply (convertStoreToBytes_unknown_unit "  3.2 tb ");
      [vm_compute; discriminate | reflexivity | reflexivity | reflexivity].
Defined.

(** C4 as stated fails for an input with white space around it: for
    [" 10tb "] the trimmed form is not empty and has no unit, and the error
    holds the trimmed ["10tb"]; its message is not the one made from the
    input as given and does not even contain that input. *)
Lemma convertStoreToBytes_unknown_unit_not_original :
  strings.TrimSpace " 10tb " <> "" /\
  strings.HasSuffix (strings.TrimSpace " 10tb ") "kb" = false /\
  strings.HasSuffix (strings.TrimSpace " 10tb ") "mb" = false /\
  strings.HasSuffix (strings.TrimSpace " 10tb ") "gb" = false /\
  convertStoreToBytes " 10tb " =
    (float64.zero, Some (errorString "unknown size unit in: 10tb")) /\
  convertStoreToBytes " 10tb " <>
    (float64.zero, Some (errorString ("unknown size unit in: " ++ " 10tb "))) /\
  strings.Contains "unknown size unit in: 10tb" " 10tb " = false.
Proof.
  repeat split; try reflexivity; vm_compute; discriminate.
Qed.

(** C6.  For an input whose trimmed form ends in kb, mb or gb and whose
    rest, the suffix taken off, [ParseFloat] does not parse,
    [convertStoreToBytes] fails with the error of the malformed number; it
    wraps the error of [ParseFloat], a [NumError] that holds the rest. *)
Theorem convertStoreToBytes_malformed (s u : string) (k : Z)
        (f : float64.t) (e : error) :
  unitPower u = Some k ->
  strings.HasSuffix (strings.TrimSpace s) u = true ->
  strconv.ParseFloat (strings.TrimSuffix (strings.TrimSpace s) u) = (f, Some e) ->
  convertStoreToBytes s =
    (float64.zero, Some (wrapError "failed to parse size value: " e)) /\
  exists cause,
    e = NumError "ParseFloat" (strings.TrimSuffix (strings.TrimSpace s) u) cause.
Proof.
  intros Hu Hs Hp.
  destruct (unitOf_suffix _ _ _ Hu Hs) as [Hunit Hne]. split.
  - unfold convertStoreToBytes.
    now rewrite (eqb_empty_false _ Hne), Hunit, Hp.
  - destruct (ParseFloat_error _ _ _ Hp) as [-> | ->]; eauto.
Qed.

(** The size xxkb of the specification: the error holds ["xx"]. *)
Lemma convertStoreToBytes_malformed_example :
  convertStoreToBytes "xxkb" =
    (float64.zero,
     Some (wrapError "failed to parse size value: "
             (NumError "ParseFloat" "xx" strconv.ErrSyntax))) /\
  exists cause,
    NumError "ParseFloat" "xx" strconv.ErrSyntax =
    NumError "ParseFloat" (strings.TrimSuffix (strings.TrimSpace "xxkb") "kb")
             cause.
Proof.
  apply (convertStoreToBytes_malformed "xxkb" "kb" 10 float64.zero);
    reflexivity.
Defined.

(** C10.  The rest is parsed by the general parser of floats: an exponent
    is accepted, and so are NaN and the infinities, for which the value
    returned is not finite. *)
Theorem convertStoreToBytes_general_floats :
  (decimalNumeral "1e3" = false /\
   convertStoreToBytes "1e3kb" = (float64.ofZ 1024000, None)) /\
  (decimalNumeral "NaN" = false /\
   convertStoreToBytes "NaNmb" = (float64.NaN, None) /\
   float64.isFinite float64.NaN = false) /\
  (decimalNumeral "+Inf" = false /\
   convertStoreToBytes "+Infgb" = (float64.Inf 1, None) /\
   float64.isFinite (float64.Inf 1) = false).
Proof. vm_compute. repeat split. Qed.

(** ** The fetcher *)

Section CollectorProperties.

Variable World : Type.
Variable Body : Type.
Variable parseURL : string -> option error.
Variable clientDo : World -> Request -> World * (Body + error).
Variable decode : Body -> list ShardInfo * option error.
Variable endpoint : string.

Local Abbreviation fetchIndex :=
  (fetchIndex World Body parseURL clientDo decode endpoint).
Local Abbreviation fetchLoop :=
  (fetchLoop World Body parseURL clientDo decode endpoint).
Local Abbreviation fetchShardInfo :=
  (fetchShardInfo World Body parseURL clientDo decode endpoint).
Local Abbreviation callback :=
  (callback World Body parseURL clientDo decode endpoint).
Local Abbreviation Fetched :=
  (Fetched World Body parseURL clientDo decode endpoint).
Local Abbreviation requestFor := (requestFor endpoint).
Local Abbreviation shardsURL := (shardsURL endpoint).

(** The three ways the step for one index fails, and the one way it
    succeeds. *)
Lemma fetchIndex_cases (n : Net World) (index : string) :
  (exists e0,
      parseURL (shardsURL index) = Some e0 /\
      fetchIndex n index =
        (n, ([], Some (wrapError "failed to create request: " e0)))) \/
  (exists w e0,
      parseURL (shardsURL index) = None /\
      clientDo (world n) (requestFor index) = (w, inr e0) /\
      fetchIndex n index =
        (mkNet w (sent n ++ [requestFor index]),
         ([], Some (wrapError "failed to execute request: " e0)))) \/
  (exists w body partial e0,
      parseURL (shardsURL index) = None /\
      clientDo (world n) (requestFor index) = (w, inl body) /\
      decode body = (partial, Some e0) /\
      fetchIndex n index =
        (mkNet w (sent n ++ [requestFor index]),
         ([], Some (wrapError "failed to decode response: " e0)))) \/
  (exists w body shards,
      parseURL (shardsURL index) = None /\
      clientDo (world n) (requestFor index) = (w, inl body) /\
      decode body = (shards, None) /\
      fetchIndex n index =
        (mkNet w (sent n ++ [requestFor index]), (shards, None))).
Proof.
  unfold opensearch.fetchIndex, NewRequestWithContext, Do,
    opensearch.requestFor.
  destruct (parseURL (shardsURL index)) as [e0|]; [left; eauto|].
  right.
  destruct (clientDo (world n) (mkRequest "GET" (shardsURL index)))
    as [w [body|e0]] eqn:Ed; [|left; eauto].
  right.
  destruct (decode body) as [shards [e0|]] eqn:Eb; [left | right]; eauto 10.
Qed.

Lemma fetchIndex_ok_sent (n n' : Net World) (index : string)
      (shards : list ShardInfo) :
  fetchIndex n index = (n', (shards, None)) ->
  sent n' = (sent n ++ [requestFor index])%list.
Proof.
  intros H.
  destruct (fetchIndex_cases n index)
    as [[e0 [_ E]] | [[w [e0 [_ [_ E]]]] | [[w [b [p [e0 [_ [_ [_ E]]]]]]]
       | [w [b [sh [_ [_ [_ E]]]]]]]]];
    rewrite E in H; inversion H; reflexivity.
Qed.

Lemma fetchIndex_error_sent (n n' : Net World) (index : string)
      (x : list ShardInfo) (e : error) :
  fetchIndex n index = (n', (x, Some e)) ->
  x = [] /\
  (sent n' = sent n \/ sent n' = (sent n ++ [requestFor index])%list).
Proof.
  intros H.
  destruct (fetchIndex_cases n index)
    as [[e0 [_ E]] | [[w [e0 [_ [_ E]]]] | [[w [b [p [e0 [_ [_ [_ E]]]]]]]
       | [w [b [sh [_ [_ [_ E]]]]]]]]];
    rewrite E in H; inversion H; subst; auto.
Qed.

(** After a successful fetch of the indices the loop holds the records
    of all the groups, in order. *)
Lemma fetchLoop_Fetched (idx : list string) (n n' : Net World)
      (groups : list (list ShardInfo)) :
  Fetched n idx n' groups ->
  forall acc, fetchLoop idx n acc = (n', ((acc ++ List.concat groups)%list, None)).
Proof.
  induction 1 as [n | n index rest n1 n2 shards groups Hstep _ IH]; intros acc.
  - simpl. now rewrite app_nil_r.
  - cbn [opensearch.fetchLoop]. rewrite Hstep, IH. cbn [List.concat].
    now rewrite app_assoc.
Qed.

Lemma Fetched_sent (idx : list string) (n n' : Net World)
      (groups : list (list ShardInfo)) :
  Fetched n idx n' groups ->
  sent n' = (sent n ++ map requestFor idx)%list /\
  List.length groups = List.length idx.
Proof.
  induction 1 as [n | n index rest n1 n2 shards groups Hstep _ [IH1 IH2]].
  - simpl. now rewrite app_nil_r.
  - rewrite IH1, (fetchIndex_ok_sent _ _ _ _ Hstep). simpl.
    now rewrite <- app_assoc, IH2.
Qed.

(** A loop that ends without error has fetched every index. *)
Lemma fetchLoop_ok_inv (idx : list string) :
  forall (n n' : Net World) (acc recs : list ShardInfo),
    fetchLoop idx n acc = (n', (recs, None)) ->
    exists groups,
      Fetched n idx n' groups /\ recs = (acc ++ List.concat groups)%list.
Proof.
  induction idx as [|index rest IH]; intros n n' acc recs H.
  - simpl in H. inversion H; subst. exists []. split; [constructor|].
    simpl. now rewrite app_nil_r.
  - cbn [opensearch.fetchLoop] in H.
    destruct (fetchIndex n index) as [n1 [shards [e|]]] eqn:Hstep;
      [discriminate|].
    destruct (IH _ _ _ _ H) as [groups [HF ->]].
    exists (shards :: groups). split; [econstructor; eauto|].
    simpl. now rewrite app_assoc.
Qed.

(** The first index that fails ends the loop there, with [nil] and the
    error of that index. *)
Lemma fetchLoop_first_failure (pre : list string) (index : string)
      (post : list string) (n n1 n2 : Net World)
      (groups : list (list ShardInfo)) (x : list ShardInfo) (e : error) :
  Fetched n pre n1 groups ->
  fetchIndex n1 index = (n2, (x, Some e)) ->
  forall acc, fetchLoop (pre ++ index :: post) n acc = (n2, ([], Some e)).
Proof.
  intros HF Hfail.
  induction HF as [n | n i rest n1 n3 shards groups Hstep _ IH]; intros acc.
  - cbn [app opensearch.fetchLoop]. now rewrite Hfail.
  - cbn [app opensearch.fetchLoop]. rewrite Hstep. now apply IH.
Qed.

(** Every run of the loop is of one of the two kinds. *)
Lemma fetchLoop_outcomes (idx : list string) :
  forall n : Net World,
    (exists n' groups, Fetched n idx n' groups) \/
    (exists pre index post n1 groups n2 x e,
        idx = (pre ++ index :: post)%list /\
        Fetched n pre n1 groups /\
        fetchIndex n1 index = (n2, (x, Some e))).
Proof.
  induction idx as [|index rest IH]; intros n.
  - left. exists n, []. constructor.
  - destruct (fetchIndex n index) as [n1 [shards [e|]]] eqn:Hstep.
    + right. exists [], index, rest, n, [], n1, shards, e.
      repeat split; [constructor | exact Hstep].
    + destruct (IH n1) as [[n' [groups HF]]
                          | [pre [i [post [n2 [groups [n3 [x [e [-> [HF Hf]]]]]]]]]]].
      * left. exists n', (shards :: groups). econstructor; eauto.
      * right. exists (index :: pre), i, post, n2, (shards :: groups), n3, x, e.
        repeat split; [econstructor; eauto | exact Hf].
Qed.

Local Abbreviation Served :=
  (Served World Body parseURL clientDo decode endpoint).
Local Abbreviation getShards := (getShards endpoint).

(** The step for one index, from what the surroundings do. *)
Lemma fetchIndex_served (n : Net World) (index : string) (w : World)
      (body : Body) (shards : list ShardInfo) :
  parseURL (URL (getShards index)) = None ->
  clientDo (world n) (getShards index) = (w, inl body) ->
  decode body = (shards, None) ->
  fetchIndex n index = (mkNet w (sent n ++ [getShards index]), (shards, None)).
Proof.
  intros Hu Hd Hb. unfold opensearch.fetchIndex, NewRequestWithContext, Do.
  change (opensearch.shardsURL endpoint index) with (URL (getShards index)).
  rewrite Hu.
  change (mkRequest "GET" (URL (getShards index))) with (getShards index).
  now rewrite Hd, Hb.
Qed.

Lemma fetchIndex_no_request (n : Net World) (index : string) (e0 : error) :
  parseURL (URL (getShards index)) = Some e0 ->
  fetchIndex n index =
  (n, ([], Some (wrapError "failed to create request: " e0))).
Proof.
  intros Hu. unfold opensearch.fetchIndex, NewRequestWithContext.
  change (opensearch.shardsURL endpoint index) with (URL (getShards index)).
  now rewrite Hu.
Qed.

Lemma fetchIndex_no_answer (n : Net World) (index : string) (w : World)
      (e0 : error) :
  parseURL (URL (getShards index)) = None ->
  clientDo (world n) (getShards index) = (w, inr e0) ->
  fetchIndex n index =
  (mkNet w (sent n ++ [getShards index]),
   ([], Some (wrapError "failed to execute request: " e0))).
Proof.
  intros Hu Hd. unfold opensearch.fetchIndex, NewRequestWithContext, Do.
  change (opensearch.shardsURL endpoint index) with (URL (getShards index)).
  rewrite Hu.
  change (mkRequest "GET" (URL (getShards index))) with (getShards index).
  now rewrite Hd.
Qed.

Lemma fetchIndex_no_records (n : Net World) (index : string) (w : World)
      (body : Body) (partial : list ShardInfo) (e0 : error) :
  parseURL (URL (getShards index)) = None ->
  clientDo (world n) (getShards index) = (w, inl body) ->
  decode body = (partial, Some e0) ->
  fetchIndex n index =
  (mkNet w (sent n ++ [getShards index]),
   ([], Some (wrapError "failed to decode response: " e0))).
Proof.
  intros Hu Hd Hb. unfold opensearch.fetchIndex, NewRequestWithContext, Do.
  change (opensearch.shardsURL endpoint index) with (URL (getShards index)).
  rewrite Hu.
  change (mkRequest "GET" (URL (getShards index))) with (getShards index).
  now rewrite Hd, Hb.
Qed.

(** Indices that the cluster serves are fetched, with one request each. *)
Lemma Served_Fetched (idx : list string) (w w' : World)
      (groups : list (list ShardInfo)) :
  Served w idx w' groups ->
  forall log,
    Fetched (mkNet w log) idx (mkNet w' (log ++ map getShards idx)) groups.
Proof.
  induction 1 as [w | w index rest w1 body shards w2 groups Hu Hd Hb _ IH];
    intros log.
  - simpl. rewrite app_nil_r. constructor.
  - econstructor.
    + exact (fetchIndex_served (mkNet w log) index w1 body shards Hu Hd Hb).
    + cbn [map sent]. specialize (IH (log ++ [getShards index])%list).
      now rewrite <- app_assoc in IH.
Qed.

Lemma Served_length (idx : list string) (w w' : World)
      (groups : list (list ShardInfo)) :
  Served w idx w' groups -> List.length groups = List.length idx.
Proof. induction 1; simpl; congruence. Qed.

Lemma Net_eta (n : Net World) : n = mkNet (world n) (sent n).
Proof. now destruct n. Qed.

(** C7.  When the cluster answers the request of every index of the list
    and every answer decodes, the loop of [fetchShardInfo] returns the
    records decoded from the answers, one group after the other in the
    order of the indices and, within an index, in the order the decoder
    gave them; and it has sent exactly one GET request for each index, in
    order, to the URL of the shards of that index under the endpoint. *)
Theorem fetchShardInfo_concatenates (idx : list string) (n : Net World)
        (w' : World) (groups : list (list ShardInfo)) :
  Served (world n) idx w' groups ->
  fetchLoop idx n [] =
    (mkNet w'
       (sent n ++
        map (fun index =>
               mkRequest "GET"
                 (endpoint ++ "/_cat/shards/" ++ index ++ "?format=json"))
            idx),
     (List.concat groups, None)) /\
  List.length groups = List.length idx.
Proof.
  intros HS. split; [|exact (Served_length _ _ _ _ HS)].
  pose proof (Served_Fetched _ _ _ _ HS (sent n)) as HF.
  rewrite <- Net_eta in HF.
  exact (fetchLoop_Fetched _ _ _ _ HF []).
Qed.

(** C3.  The requests go out one after the other in the order of the
    indices, and the first index that fails ends the fetch at once.
    After the cluster has served the indices [pre], whichever way the
    next index fails (its URL does not parse, the transport returns an
    error, or the body does not decode) the fetch returns [nil] and that
    error under the message of the step: the records of [pre] are gone,
    the requests sent are those of [pre], in order, and the one of the
    failing index if it was built, and none for an index after it. *)
Theorem fetchShardInfo_aborts (pre : list string) (index : string)
        (post : list string) (n : Net World) (w1 : World)
        (groups : list (list ShardInfo)) (acc : list ShardInfo) :
  Served (world n) pre w1 groups ->
  let url := endpoint ++ "/_cat/shards/" ++ index ++ "?format=json" in
  let before :=
    (sent n ++
     map (fun i =>
            mkRequest "GET" (endpoint ++ "/_cat/shards/" ++ i ++ "?format=json"))
         pre)%list in
  (forall e0,
      parseURL url = Some e0 ->
      fetchLoop (pre ++ index :: post) n acc =
      (mkNet w1 before,
       ([], Some (wrapError "failed to create request: " e0)))) /\
  (forall w2 e0,
      parseURL url = None ->
      clientDo w1 (mkRequest "GET" url) = (w2, inr e0) ->
      fetchLoop (pre ++ index :: post) n acc =
      (mkNet w2 (before ++ [mkRequest "GET" url]),
       ([], Some (wrapError "failed to execute request: " e0)))) /\
  (forall w2 body partial e0,
      parseURL url = None ->
      clientDo w1 (mkRequest "GET" url) = (w2, inl body) ->
      decode body = (partial, Some e0) ->
      fetchLoop (pre ++ index :: post) n acc =
      (mkNet w2 (before ++ [mkRequest "GET" url]),
       ([], Some (wrapError "failed to decode response: " e0)))).
Proof.
  intros HS url before.
  pose proof (Served_Fetched _ _ _ _ HS (sent n)) as HF.
  rewrite <- Net_eta in HF.
  split; [|split].
  - intros e0 Hu.
    exact (fetchLoop_first_failure _ _ post _ _ _ _ _ _ HF
             (fetchIndex_no_request (mkNet w1 before) index e0 Hu) acc).
  - intros w2 e0 Hu Hd.
    exact (fetchLoop_first_failure _ _ post _ _ _ _ _ _ HF
             (fetchIndex_no_answer (mkNet w1 before) index w2 e0 Hu Hd) acc).
  - intros w2 body partial e0 Hu Hd Hb.
    exact (fetchLoop_first_failure _ _ post _ _ _ _ _ _ HF
             (fetchIndex_no_records (mkNet w1 before) index w2 body partial e0
                Hu Hd Hb) acc).
Qed.

(** ** The callback *)

Lemma observeShards_converts (shards : list ShardInfo) :
  Forall converts shards ->
  forall o, observeShards shards o = ((o ++ map observationOf shards)%list, None).
Proof.
  induction 1 as [|shard rest Hc _ IH]; intros o.
  - simpl. now rewrite app_nil_r.
  - cbn [observeShards map]. unfold converts in Hc.
    destruct (convertStoreToBytes (Store shard)) as [v err] eqn:E.
    simpl in Hc. subst err. rewrite IH, <- app_assoc.
    unfold observationOf at 2. now rewrite E.
Qed.

(** The loop stops at the first record whose size does not convert: the
    observer has been given the records before it, and the error is the
    one of that record. *)
Lemma observeShards_first_failure (pre : list ShardInfo) (bad : ShardInfo)
      (post : list ShardInfo) (v : float64.t) (e : error) :
  Forall converts pre ->
  convertStoreToBytes (Store bad) = (v, Some e) ->
  forall o,
    observeShards (pre ++ bad :: post) o =
    ((o ++ map observationOf pre)%list,
     Some (wrapError "failed to convert store size: " e)).
Proof.
  intros Hpre Hbad.
  induction Hpre as [|shard rest Hc _ IH]; intros o.
  - cbn [app observeShards map]. now rewrite Hbad, app_nil_r.
  - cbn [app observeShards map]. unfold converts in Hc.
    destruct (convertStoreToBytes (Store shard)) as [w err] eqn:E.
    simpl in Hc. subst err. rewrite IH, <- app_assoc.
    unfold observationOf at 2. now rewrite E.
Qed.

(** Among records of which one does not convert there is a first. *)
Lemma first_not_converting (shards : list ShardInfo) :
  (exists shard, In shard shards /\ ~ converts shard) ->
  exists pre bad post v e,
    shards = (pre ++ bad :: post)%list /\ Forall converts pre /\
    convertStoreToBytes (Store bad) = (v, Some e).
Proof.
  induction shards as [|shard rest IH]; intros [r [Hin Hr]]; [contradiction|].
  destruct (convertStoreToBytes (Store shard)) as [v [e|]] eqn:E.
  - exists [], shard, rest, v, e. auto.
  - assert (Hc : converts shard) by (unfold converts; now rewrite E).
    destruct Hin as [-> | Hin]; [contradiction|].
    destruct (IH (ex_intro _ r (conj Hin Hr)))
      as [pre [bad [post [w [e [-> [Hpre Hbad]]]]]]].
    exists (shard :: pre), bad, post, w, e. auto.
Qed.

Lemma observeShards_ok_inv (shards : list ShardInfo) :
  forall o obs,
    observeShards shards o = (obs, None) ->
    Forall converts shards /\ obs = (o ++ map observationOf shards)%list.
Proof.
  induction shards as [|shard rest IH]; intros o obs H.
  - simpl in H. inversion H. split; [constructor | now rewrite app_nil_r].
  - cbn [observeShards] in H.
    destruct (convertStoreToBytes (Store shard)) as [v [e|]] eqn:E;
      [discriminate|].
    destruct (IH _ _ H) as [Hrest ->]. split.
    + constructor; [unfold converts; now rewrite E | exact Hrest].
    + cbn [map]. unfold observationOf at 2. now rewrite E, <- app_assoc.
Qed.

(** C2.  When the fetch succeeds and the size of some record fetched does
    not convert, the callback returns an error, and no observation of the
    cycle is committed. *)
Theorem callback_conversion_failure (n n' : Net World)
        (shards : list ShardInfo) :
  fetchShardInfo n = (n', (shards, None)) ->
  (exists shard, In shard shards /\ ~ converts shard) ->
  (exists err, snd (snd (callback n)) = Some err) /\
  committed (snd (callback n)) = [].
Proof.
  intros Hfetch Hbad.
  destruct (first_not_converting _ Hbad)
    as [pre [bad [post [v [e [-> [Hpre Hconv]]]]]]].
  unfold opensearch.callback. rewrite Hfetch.
  rewrite (observeShards_first_failure _ _ _ _ _ Hpre Hconv []).
  split; [eexists; reflexivity | reflexivity].
Qed.

(** What the callback has done by the time it returns that error: it has
    given the observer the records before the first that does not
    convert. *)
Lemma callback_calls_before_failure (n n' : Net World)
      (pre : list ShardInfo) (bad : ShardInfo) (post : list ShardInfo)
      (v : float64.t) (e : error) :
  fetchShardInfo n = (n', ((pre ++ bad :: post)%list, None)) ->
  Forall converts pre ->
  convertStoreToBytes (Store bad) = (v, Some e) ->
  callback n =
  (n', (map observationOf pre,
        Some (wrapError "failed to convert store size: " e))).
Proof.
  intros Hfetch Hpre Hconv. unfold opensearch.callback. rewrite Hfetch.
  now rewrite (observeShards_first_failure _ _ _ _ _ Hpre Hconv []).
Qed.

(** When the fetch itself fails the callback returns before any call on
    the observer. *)
Lemma callback_fetch_failure (n n' : Net World) (x : list ShardInfo)
      (e : error) :
  fetchShardInfo n = (n', (x, Some e)) ->
  callback n = (n', ([], Some (wrapError "failed to fetch shard info: " e))).
Proof. intros H. unfold opensearch.callback. now rewrite H. Qed.

(** C5.  When the first index gives the records [recsA] and the second the
    records [recsB] and the callback returns no error, it has made one
    observation for each record, in the order fetched: as many as there
    are records, each with the size of its record converted as value and
    with the index, shard, prirep, state, node and ip of its record as
    attributes. *)
Theorem callback_observations (n n' n'' : Net World)
        (recsA recsB : list ShardInfo) (obs : list Observation) :
  Fetched n indices n' [recsA; recsB] ->
  callback n = (n'', (obs, None)) ->
  List.length obs = (List.length recsA + List.length recsB)%nat /\
  Forall2
    (fun shard o =>
       convertStoreToBytes (Store shard) = (value o, None) /\
       attrs o =
         [ ("index", Index shard); ("shard", Shard shard);
           ("prirep", Prirep shard); ("state", State shard);
           ("node", Node shard); ("ip", IP shard) ])
    (recsA ++ recsB) obs.
Proof.
  intros HF Hcall.
  split;
    pose proof (fetchLoop_Fetched _ _ _ _ HF []) as Hfetch;
    cbn [List.concat app] in Hfetch; rewrite app_nil_r in Hfetch;
    unfold opensearch.callback, opensearch.fetchShardInfo in Hcall;
    rewrite Hfetch in Hcall;
    assert (Hobs : observeShards (recsA ++ recsB) [] = (obs, None))
      by (now inversion Hcall);
    destruct (observeShards_ok_inv _ _ _ Hobs) as [Hconv ->]; cbn [app].
  - now rewrite length_map, length_app.
  - clear - Hconv. induction Hconv as [|shard rest Hc _ IH]; cbn [map].
    + constructor.
    + constructor; [|exact IH]. split; [|reflexivity].
      unfold converts in Hc. unfold observationOf. cbn [value].
      destruct (convertStoreToBytes (Store shard)) as [v err].
      simpl in Hc |- *. now subst err.
Qed.

End CollectorProperties.

(** ** The errors of the fetcher under the HTTP client *)

Lemma hasPrefix_bytes_app (s b : list byte) :
  strings.hasPrefix_bytes (s ++ b) s = true.
Proof.
  induction s as [|c s IH]; [now destruct b|].
  cbn [app strings.hasPrefix_bytes]. rewrite IH, andb_true_r.
  now apply byte_eqb_eq.
Qed.

Lemma contains_bytes_mid (a s b : list byte) :
  strings.contains_bytes (a ++ s ++ b) s = true.
Proof.
  induction a as [|c a IH].
  - cbn [app]. destruct (s ++ b)%list eqn:E;
      cbn [strings.contains_bytes]; rewrite <- E, hasPrefix_bytes_app;
      reflexivity.
  - cbn [app strings.contains_bytes]. rewrite IH. apply orb_true_r.
Qed.

(** A [*url.Error] names whatever its URL holds. *)
Lemma urlError_mentions (op a1 a2 s b : string) (err : error) :
  mentions (http.urlError op (a1 ++ a2 ++ s ++ b) err) s = true.
Proof.
  unfold http.urlError, http.Quote. cbn [mentions].
  apply orb_true_iff. left. unfold strings.Contains.
  assert (H : exists x y,
             bytes (op ++ " "
                    ++ String "034" ((a1 ++ a2 ++ s ++ b) ++ String "034" "")
                    ++ ": ") = (x ++ bytes s ++ y)%list).
  { exists (bytes op ++ bytes " " ++ ["034"%char] ++ bytes a1 ++ bytes a2)%list,
           (bytes b ++ ["034"%char] ++ bytes ": ")%list.
    rewrite !bytes_app.
    change (bytes (String "034" ((a1 ++ a2 ++ s ++ b) ++ String "034" "")))
      with ("034"%char :: bytes ((a1 ++ a2 ++ s ++ b) ++ String "034" "")).
    rewrite !bytes_app.
    change (bytes (String "034" "")) with ["034"%char].
    repeat (rewrite <- ?app_assoc, <- ?app_comm_cons; cbn [app]).
    reflexivity. }
  destruct H as [x [y ->]]. apply contains_bytes_mid.
Qed.

Section ClientProperties.

Variable World : Type.
Variable Body : Type.
Variable parseURL : string -> option error.
Variable roundTrip : World -> Request -> World * (Body + error).
Variable decode : Body -> list ShardInfo * option error.
Variable endpoint : string.

Local Abbreviation client := (http.ClientDo World Body roundTrip).
Local Abbreviation fetchLoop :=
  (fetchLoop World Body parseURL client decode endpoint).
Local Abbreviation Served :=
  (Served World Body parseURL client decode endpoint).


End ClientProperties.

(** ** Runs against the stub cluster *)

Lemma Stub_metrics_Fetched (serve : string -> Stub.Body + error) :
  serve Stub.metricsURL = inl ([Stub.m0; Stub.m1], None) ->
  Fetched Stub.World Stub.Body Stub.parseURL (Stub.clientDo serve) Stub.decode
    Stub.endpoint Stub.start ["otlp-metrics"]
    (mkNet tt [mkRequest "GET" Stub.metricsURL]) [[Stub.m0; Stub.m1]].
Proof.
  intros H. econstructor; [|constructor].
  unfold fetchIndex, NewRequestWithContext, Do, Stub.clientDo, Stub.parseURL.
  cbn [world sent Stub.start URL].
  change (shardsURL Stub.endpoint "otlp-metrics") with Stub.metricsURL.
  now rewrite H.
Qed.

Lemma Stub_healthy_Fetched :
  Fetched Stub.World Stub.Body Stub.parseURL (Stub.clientDo Stub.healthy)
    Stub.decode Stub.endpoint Stub.start indices
    (mkNet tt [mkRequest "GET" Stub.metricsURL; mkRequest "GET" Stub.logsURL])
    [[Stub.m0; Stub.m1]; [Stub.l0]].
Proof. repeat (econstructor; [reflexivity|]). constructor. Qed.

Lemma Stub_metrics_Served (client : Stub.World -> Request -> Stub.World * (Stub.Body + error)) :
  client tt (getShards Stub.endpoint "otlp-metrics") =
    (tt, inl ([Stub.m0; Stub.m1], None)) ->
  Served Stub.World Stub.Body Stub.parseURL client Stub.decode Stub.endpoint
    tt ["otlp-metrics"] tt [[Stub.m0; Stub.m1]].
Proof.
  intros H. econstructor; [reflexivity | exact H | reflexivity | constructor].
Qed.

Lemma Stub_healthy_Served :
  Served Stub.World Stub.Body Stub.parseURL (Stub.clientDo Stub.healthy)
    Stub.decode Stub.endpoint tt indices tt [[Stub.m0; Stub.m1]; [Stub.l0]].
Proof.
  repeat (econstructor; [reflexivity | reflexivity | reflexivity |]).
  constructor.
Qed.

(** Both indices answer: the three records come back in order, after one
    GET request for each index. *)
Lemma fetchShardInfo_concatenates_healthy :
  Stub.fetch Stub.healthy =
    (mkNet tt
       [mkRequest "GET" "http://localhost:3000/_cat/shards/otlp-metrics?format=json";
        mkRequest "GET" "http://localhost:3000/_cat/shards/otlp-logs?format=json"],
     ([Stub.m0; Stub.m1; Stub.l0], None)) /\
  List.length [[Stub.m0; Stub.m1]; [Stub.l0]] = List.length indices.
Proof.
  exact (fetchShardInfo_concatenates Stub.World Stub.Body Stub.parseURL
           (Stub.clientDo Stub.healthy) Stub.decode Stub.endpoint indices
           Stub.start tt _ Stub_healthy_Served).
Defined.

(** The first index is served; then the transport fails for the second
    index, or its body is a JSON object: each time the two records of the
    first index are not returned. *)
Lemma fetchShardInfo_aborts_logs_down :
  Stub.fetch Stub.logsDown =
    (mkNet tt
       [mkRequest "GET" "http://localhost:3000/_cat/shards/otlp-metrics?format=json";
        mkRequest "GET" "http://localhost:3000/_cat/shards/otlp-logs?format=json"],
     ([], Some (wrapError "failed to execute request: " Stub.refused))) /\
  Stub.fetch Stub.logsObject =
    (mkNet tt
       [mkRequest "GET" "http://localhost:3000/_cat/shards/otlp-metrics?format=json";
        mkRequest "GET" "http://localhost:3000/_cat/shards/otlp-logs?format=json"],
     ([], Some (wrapError "failed to decode response: " Stub.notArray))).
Proof.
  split.
  - exact (proj1 (proj2
             (fetchShardInfo_aborts Stub.World Stub.Body Stub.parseURL
                (Stub.clientDo Stub.logsDown) Stub.decode Stub.endpoint
                ["otlp-metrics"] "otlp-logs" [] Stub.start tt _ []
                (Stub_metrics_Served (Stub.clientDo Stub.logsDown) eq_refl)))
             tt Stub.refused eq_refl eq_refl).
  - exact (proj2 (proj2
             (fetchShardInfo_aborts Stub.World Stub.Body Stub.parseURL
                (Stub.clientDo Stub.logsObject) Stub.decode Stub.endpoint
                ["otlp-metrics"] "otlp-logs" [] Stub.start tt _ []
                (Stub_metrics_Served (Stub.clientDo Stub.logsObject) eq_refl)))
             tt ([], Some Stub.notArray) [] Stub.notArray
             eq_refl eq_refl eq_refl).
Defined.



(** The two runs themselves: the same error for either index. *)
Lemma decode_error_same_for_either_index :
  snd (Stub.fetch Stub.metricsObject) =
    ([], Some (wrapError "failed to decode response: " Stub.notArray)) /\
  snd (Stub.fetch Stub.logsObject) =
    ([], Some (wrapError "failed to decode response: " Stub.notArray)).
Proof. split; reflexivity. Qed.

(** The second index holds a record of unknown unit: the callback returns
    the error and nothing is committed, though the observer was given the
    three records before that one. *)
Lemma callback_conversion_failure_odd_size :
  (exists err, snd (snd (Stub.run Stub.oddSize)) = Some err) /\
  committed (snd (Stub.run Stub.oddSize)) = [].
Proof.
  apply (callback_conversion_failure Stub.World Stub.Body Stub.parseURL
           (Stub.clientDo Stub.oddSize) Stub.decode Stub.endpoint Stub.start
           (mkNet tt [mkRequest "GET" Stub.metricsURL; mkRequest "GET" Stub.logsURL])
           [Stub.m0; Stub.m1; Stub.l0; Stub.bad]).
  - reflexivity.
  - exists Stub.bad. split; [simpl; auto|]. unfold converts. vm_compute.
    discriminate.
Defined.

Lemma callback_odd_size_calls :
  fst (snd (Stub.run Stub.oddSize)) =
    map observationOf [Stub.m0; Stub.m1; Stub.l0] /\
  snd (snd (Stub.run Stub.oddSize)) =
    Some (wrapError "failed to convert store size: "
            (errorString "unknown size unit in: 10tb")).
Proof. split; vm_compute; reflexivity. Qed.

(** Two records for the first index and one for the second: three
    observations, of 524288, 1610612736 and 0 bytes. *)
Lemma callback_observations_healthy :
  List.length (fst (snd (Stub.run Stub.healthy))) = (2 + 1)%nat /\
  Forall2
    (fun shard o =>
       convertStoreToBytes (Store shard) = (value o, None) /\
       attrs o =
         [ ("index", Index shard); ("shard", Shard shard);
           ("prirep", Prirep shard); ("state", State shard);
           ("node", Node shard); ("ip", IP shard) ])
    ([Stub.m0; Stub.m1] ++ [Stub.l0]) (fst (snd (Stub.run Stub.healthy))).
Proof.
  apply (callback_observations Stub.World Stub.Body Stub.parseURL
           (Stub.clientDo Stub.healthy) Stub.decode Stub.endpoint Stub.start
           _ (fst (Stub.run Stub.healthy)) [Stub.m0; Stub.m1] [Stub.l0] _
           Stub_healthy_Fetched).
  vm_compute. reflexivity.
Defined.

Lemma callback_healthy_values :
  map value (fst (snd (Stub.run Stub.healthy))) =
    [float64.ofZ 524288; float64.ofZ 1610612736; float64.zero].
Proof. vm_compute. reflexivity. Qed.

(** * Further properties *)

(** ** The size parser: white space, units and errors *)

Lemma asciiSpace_below (c : byte) :
  strings.asciiSpace (code c) = true ->
  (utf8.RuneSelf <=? code c)%Z = false.
Proof.
  unfold strings.asciiSpace, utf8.RuneSelf.
  rewrite orb_true_iff, andb_true_iff, !Z.leb_le, Z.eqb_eq, Z.leb_gt. lia.
Qed.

Lemma scanStart_spaces (ws rest : list byte) :
  forallb (fun c => strings.asciiSpace (code c)) ws = true ->
  strings.scanStart (ws ++ rest) = strings.scanStart rest.
Proof.
  induction ws as [|c ws IH]; intros H; [reflexivity|].
  cbn [forallb] in H. apply andb_true_iff in H. destruct H as [Hc Hws].
  cbn [app strings.scanStart]. rewrite (asciiSpace_below c Hc), Hc. auto.
Qed.

Lemma scanStop_spaces (ws rest : list byte) :
  forallb (fun c => strings.asciiSpace (code c)) ws = true ->
  strings.scanStop (ws ++ rest) = strings.scanStop rest.
Proof.
  induction ws as [|c ws IH]; intros H; [reflexivity|].
  cbn [forallb] in H. apply andb_true_iff in H. destruct H as [Hc Hws].
  cbn [app strings.scanStop]. rewrite (asciiSpace_below c Hc), Hc. auto.
Qed.

Lemma forallb_rev {A : Type} (f : A -> bool) (l : list A) :
  forallb f l = true -> forallb f (rev l) = true.
Proof.
  rewrite !forallb_forall. intros H x Hx. apply H. now apply in_rev.
Qed.

(** A framed string is a first byte and a last byte at which the loops of
    [TrimSpace] stop. *)
Lemma framed_ends (s : string) :
  framed s = true ->
  exists c t m d,
    bytes s = (c :: t)%list /\ plain c = true /\
    (c :: t = m ++ [d])%list /\ plain d = true.
Proof.
  unfold framed. destruct (bytes s) as [|c t]; [discriminate|].
  rewrite andb_true_iff. intros [Hc Hd].
  destruct (@exists_last _ (c :: t) ltac:(discriminate)) as [m [d E]].
  exists c, t, m, d. repeat split; auto.
  assert (Hl : last t c = last (c :: t) c) by (destruct t; reflexivity).
  rewrite Hl, E, last_last in Hd. exact Hd.
Qed.

(** ASCII white space around a framed string is all that [TrimSpace]
    takes off. *)
Lemma TrimSpace_padding (l s r : string) :
  asciiSpaces l = true -> asciiSpaces r = true -> framed s = true ->
  strings.TrimSpace (l ++ s ++ r) = s.
Proof.
  intros Hl Hr Hs.
  destruct (framed_ends s Hs) as [c [t [m [d [Hb [Hc [Hm Hd]]]]]]].
  unfold strings.TrimSpace, strings.TrimSpace_bytes.
  rewrite !bytes_app, (scanStart_spaces _ _ Hl), Hb.
  change ((c :: t) ++ bytes r)%list with (c :: (t ++ bytes r))%list.
  rewrite (scanStart_plain _ _ Hc).
  change (c :: (t ++ bytes r))%list with ((c :: t) ++ bytes r)%list.
  rewrite rev_app_distr, (scanStop_spaces _ _ (forallb_rev _ _ Hr)).
  rewrite Hm, rev_unit, (scanStop_plain _ _ Hd), <- rev_unit, rev_involutive.
  rewrite <- Hm, <- Hb. apply str_bytes.
Qed.

(** X1.  ASCII white space before and after a size changes nothing: for a
    string that starts and ends with ASCII bytes that are not spaces, the
    result is that of the string without the white space around it. *)
Theorem convertStoreToBytes_ignores_padding (l s r : string) :
  asciiSpaces l = true -> asciiSpaces r = true -> framed s = true ->
  convertStoreToBytes (l ++ s ++ r) = convertStoreToBytes s.
Proof.
  intros Hl Hr Hs. unfold convertStoreToBytes.
  rewrite (TrimSpace_padding l s r Hl Hr Hs).
  pose proof (TrimSpace_padding "" s "" eq_refl eq_refl Hs) as H0.
  cbn [append] in H0.
  replace (s ++ "") with s in H0
    by (apply bytes_inj; rewrite bytes_app; symmetry; apply app_nil_r).
  now rewrite H0.
Qed.

Lemma convertStoreToBytes_ignores_padding_example :
  convertStoreToBytes (String "009" " " ++ "512kb" ++ String "010" "") =
  convertStoreToBytes "512kb".
Proof.
  apply (convertStoreToBytes_ignores_padding (String "009" " ") "512kb"
           (String "010" "")); reflexivity.
Defined.

(** The branch taken tells the unit and the rest. *)
Lemma unitOf_inv (t rest : string) (multiplier : float64.t) :
  unitOf t = Some (multiplier, rest) ->
  exists u k,
    unitPower u = Some k /\ t = rest ++ u /\ multiplier = float64.ofZ (2 ^ k).
Proof.
  unfold unitOf.
  destruct (strings.HasSuffix t "kb") eqn:Hkb;
    [|destruct (strings.HasSuffix t "mb") eqn:Hmb;
      [|destruct (strings.HasSuffix t "gb") eqn:Hgb; [|discriminate]]];
    intros H; inversion H; subst; clear H;
    match goal with
    | Hs : strings.HasSuffix t ?u = true |- _ =>
        apply HasSuffix_iff in Hs; destruct Hs as [a ->];
        exists u; eexists; rewrite TrimSuffix_app;
        split; [reflexivity | split; reflexivity]
    end.
Qed.

(** X2.  The [switch] on the unit: a trimmed string takes a branch exactly
    when it is some rest followed by kb, mb or gb, and then with the
    multiplier of that unit and that rest; the order of the cases plays no
    part, since no string ends in two of the units. *)
Theorem unitOf_iff (t rest : string) (multiplier : float64.t) :
  unitOf t = Some (multiplier, rest) <->
  exists u k,
    unitPower u = Some k /\ t = rest ++ u /\ multiplier = float64.ofZ (2 ^ k).
Proof.
  split; [apply unitOf_inv|].
  intros [u [k [Hu [-> ->]]]]. exact (unitPower_suffix rest u k Hu).
Qed.

(** X3.  The errors of [convertStoreToBytes] are of two kinds only, and the
    value that comes with an error is 0: the error of the unknown unit,
    whose message ends with the trimmed input, and the error of
    [ParseFloat] for the rest before the unit, wrapped, be it a syntax or a
    range error. *)
Theorem convertStoreToBytes_errors (s : string) (v : float64.t) (e : error) :
  convertStoreToBytes s = (v, Some e) ->
  v = float64.zero /\
  (e = errorString ("unknown size unit in: " ++ strings.TrimSpace s) \/
   exists rest u k cause,
     unitPower u = Some k /\ strings.TrimSpace s = rest ++ u /\
     (cause = strconv.ErrSyntax \/ cause = strconv.ErrRange) /\
     e = wrapError "failed to parse size value: "
           (NumError "ParseFloat" rest cause)).
Proof.
  unfold convertStoreToBytes.
  destruct (String.eqb (strings.TrimSpace s) ""); [discriminate|].
  destruct (unitOf (strings.TrimSpace s)) as [[multiplier rest]|] eqn:Hu.
  - destruct (strconv.ParseFloat rest) as [f [err|]] eqn:Hp; [|discriminate].
    intros H. inversion H; subst. split; [reflexivity|]. right.
    apply unitOf_inv in Hu. destruct Hu as [u [k [Hk [Ht _]]]].
    destruct (ParseFloat_error _ _ _ Hp) as [-> | ->];
      exists rest, u, k; eexists; eauto.
  - intros H. inversion H. auto.
Qed.

Lemma convertStoreToBytes_errors_example :
  float64.zero = float64.zero /\
  (wrapError "failed to parse size value: "
     (NumError "ParseFloat" "1e400" strconv.ErrRange) =
   errorString ("unknown size unit in: " ++ strings.TrimSpace " 1e400gb") \/
   exists rest u k cause,
     unitPower u = Some k /\ strings.TrimSpace " 1e400gb" = rest ++ u /\
     (cause = strconv.ErrSyntax \/ cause = strconv.ErrRange) /\
     wrapError "failed to parse size value: "
       (NumError "ParseFloat" "1e400" strconv.ErrRange) =
     wrapError "failed to parse size value: "
       (NumError "ParseFloat" rest cause)).
Proof.
  apply (convertStoreToBytes_errors " 1e400gb" float64.zero). reflexivity.
Defined.

(** ** The size parser: the multiplication *)

(** The sign goes through the rounding unchanged. *)
Lemma binary_round_aux_opp (mx ex : Z) (lx : location) :
  binary_round_aux float64.prec float64.emax true mx ex lx =
  SFopp (binary_round_aux float64.prec float64.emax false mx ex lx).
Proof.
  unfold binary_round_aux.
  destruct (shr_fexp float64.prec float64.emax mx ex lx) as [mrs e'].
  destruct (shr_fexp float64.prec float64.emax _ e' loc_Exact) as [mrs' e''].
  destruct (shr_m mrs'); [reflexivity | | reflexivity].
  destruct (e'' <=? float64.emax - float64.prec)%Z; reflexivity.
Qed.

Lemma mul_opp (x : float64.t) (k : Z) :
  (k = 10 \/ k = 20 \/ k = 30)%Z ->
  float64.mul (SFopp x) (float64.ofZ (2 ^ k)) =
  SFopp (float64.mul x (float64.ofZ (2 ^ k))).
Proof.
  intros Hk.
  assert (Hm : exists m e, float64.ofZ (2 ^ k) = S754_finite false m e)
    by (destruct Hk as [-> | [-> | ->]]; eexists; eexists; reflexivity).
  destruct Hm as [m [e ->]].
  destruct x as [[|] | [|] | | [|] mx ex]; try reflexivity;
    unfold float64.mul, SFmul, SFopp; cbn [negb xorb].
  - rewrite binary_round_aux_opp.
    now destruct (binary_round_aux _ _ false _ _ _) as [[|] | [|] | | [|] ? ?].
  - apply binary_round_aux_opp.
Qed.

(** The product of a mantissa of 53 bits and 2^52, rounded at an exponent
    52 lower, is the mantissa at the exponent, or an infinity beyond the
    largest exponent. *)
Lemma binary_round_aux_scaled (s : bool) (m : positive) (e : Z) :
  Zpos (digits2_pos m) = 53%Z -> (-1074 <= e + 52)%Z ->
  binary_round_aux float64.prec float64.emax s
    (Zpos (m * 4503599627370496)) e loc_Exact =
  if (e + 52 <=? 971)%Z then S754_finite s m (e + 52) else S754_infinity s.
Proof.
  intros Hd He.
  assert (Hmul : (m * 4503599627370496)%positive =
                 Pos.iter xO m 52%positive).
  { rewrite Pos.mul_comm. reflexivity. }
  assert (Hdig : Zpos (digits2_pos (m * 4503599627370496)) = 105%Z).
  { rewrite Hmul. cbn [Pos.iter digits2_pos]. injection Hd as Hd.
    rewrite Hd. reflexivity. }
  unfold binary_round_aux, shr_fexp.
  cbn [Zdigits2]. rewrite Hdig.
  assert (Hf1 : fexp float64.prec float64.emax (105 + e) = (e + 52)%Z).
  { unfold fexp, emin, float64.prec, float64.emax. lia. }
  rewrite Hf1. replace (e + 52 - e)%Z with 52%Z by lia.
  cbn [shr shr_record_of_loc]. rewrite Hmul.
  cbn [Pos.iter iter_pos shr_1 orb].
  cbn [shr_m loc_of_shr_record round_nearest_even Zdigits2].
  rewrite Hd.
  assert (Hf2 : fexp float64.prec float64.emax (53 + (e + 52)) = (e + 52)%Z).
  { unfold fexp, emin, float64.prec, float64.emax. lia. }
  rewrite Hf2, Z.sub_diag. cbn [shr shr_record_of_loc shr_m].
  reflexivity.
Qed.

(** The parser on a trimmed string that is a rest and a unit. *)
Lemma convertStoreToBytes_rest_unit (s rest u : string) (k : Z) :
  strings.TrimSpace s = rest ++ u -> unitPower u = Some k ->
  convertStoreToBytes s =
  match strconv.ParseFloat rest with
  | (_, Some err) =>
      (float64.zero, Some (wrapError "failed to parse size value: " err))
  | (v, None) => (float64.mul v (float64.ofZ (2 ^ k)), None)
  end.
Proof.
  intros Ht Hu. unfold convertStoreToBytes. rewrite Ht.
  destruct (unitOf_suffix (rest ++ u) u k Hu (HasSuffix_app rest u)) as [_ Hne].
  now rewrite (eqb_empty_false _ Hne), (unitPower_suffix rest u k Hu).
Qed.

Lemma mul_scaled (s : bool) (m : positive) (e k : Z) :
  (k = 10 \/ k = 20 \/ k = 30)%Z ->
  normal (S754_finite s m e) = true ->
  float64.mul (S754_finite s m e) (float64.ofZ (2 ^ k)) =
  if (e + k <=? 971)%Z then S754_finite s m (e + k) else S754_infinity s.
Proof.
  intros Hk Hn. unfold normal in Hn.
  rewrite !andb_true_iff, Z.eqb_eq, !Z.leb_le in Hn.
  destruct Hn as [[Hd Hlo] Hhi].
  assert (Ho : float64.ofZ (2 ^ k) =
               S754_finite false 4503599627370496 (k - 52))
    by (destruct Hk as [-> | [-> | ->]]; reflexivity).
  rewrite Ho. unfold float64.mul, SFmul.
  replace (xorb s false) with s by (now destruct s).
  rewrite (binary_round_aux_scaled s m (e + (k - 52)) Hd) by lia.
  now replace (e + (k - 52) + 52)%Z with (e + k)%Z by lia.
Qed.

(** X4.  The multiplication by the unit is exact and its overflow is not
    an error: when the rest before the unit parses to a normal float64
    [m * 2^e] (a mantissa of 53 bits), the result is [m * 2^(e+k)] for the
    unit 2^k, with the same mantissa, or the infinity of the same sign
    once [e + k] passes the largest exponent, in both cases with no
    error. *)
Theorem convertStoreToBytes_scales_exactly (str rest u : string) (k : Z)
        (s : bool) (m : positive) (e : Z) :
  strings.TrimSpace str = rest ++ u ->
  unitPower u = Some k ->
  strconv.ParseFloat rest = (S754_finite s m e, None) ->
  normal (S754_finite s m e) = true ->
  convertStoreToBytes str =
  (if (e + k <=? 971)%Z then S754_finite s m (e + k) else S754_infinity s,
   None).
Proof.
  intros Ht Hu Hp Hn.
  rewrite (convertStoreToBytes_rest_unit str rest u k Ht Hu), Hp.
  rewrite mul_scaled; [reflexivity | | exact Hn].
  destruct (unitPower_cases _ _ Hu) as [[_ ->] | [[_ ->] | [_ ->]]]; auto.
Qed.

(** 512kb keeps the mantissa of 512; 1e308gb is beyond the range of a
    float64 and comes back as +Inf without an error. *)
Lemma convertStoreToBytes_scales_exactly_examples :
  convertStoreToBytes "512kb" =
    (S754_finite false 4503599627370496 (-33), None) /\
  convertStoreToBytes "1e308gb" = (S754_infinity false, None).
Proof.
  split.
  - apply (convertStoreToBytes_scales_exactly "512kb" "512" "kb" 10 false
             4503599627370496 (-43)); reflexivity.
  - apply (convertStoreToBytes_scales_exactly "1e308gb" "1e308" "gb" 30 false
             5010420900022432 971); reflexivity.
Defined.

(** ** The size parser: the sign *)

Lemma unsigned_head (num : string) :
  unsignedNumeral num = true ->
  exists b t, bytes num = (b :: t)%list /\ numeralByte (code b).
Proof.
  unfold unsignedNumeral. destruct (bytes num) as [|b t]; [discriminate|].
  intros H. exists b, t. split; [reflexivity|].
  exact (numeralBody_head _ _ _ _ H).
Qed.

Lemma unsigned_decimal (num : string) :
  unsignedNumeral num = true -> decimalNumeral num = true.
Proof.
  intros H. destruct (unsigned_head num H) as [b [t [Hb Hn]]].
  unfold unsignedNumeral in H. unfold decimalNumeral. rewrite Hb in *.
  unfold numeralByte in Hn.
  destruct (Z.eqb_spec (code b) 43); [exfalso; lia|].
  destruct (Z.eqb_spec (code b) 45); [exfalso; lia|]. exact H.
Qed.

(** What [readFloat] reads in a decimal numeral, by its sign and body. *)
Lemma readFloat_numeral_number (s : list byte) (sign : bool)
      (body : list byte) :
  s <> [] -> strconv.readSign s = (sign, body) ->
  numeralBody body false false = true ->
  exists d,
    strconv.readDigits 10 body strconv.digits0 = (d, []) /\
    strconv.readFloat s =
    Some (strconv.mkNumber sign false (strconv.mant d) (strconv.nd d)
            ((if strconv.sawdot d then strconv.dp d else strconv.nd d) + 0)
            (len s)).
Proof.
  intros Hne Hsign Hbody. destruct s as [|b t]; [congruence|].
  destruct (readDigits_numeral body strconv.digits0 Hbody) as [d [Hd [Hsaw Hus]]].
  exists d. split; [exact Hd|].
  unfold strconv.readFloat. rewrite Hsign, (readBase_numeral _ _ _ Hbody).
  rewrite Hd, Hsaw. cbn [negb strconv.readExponent]. rewrite Hus.
  cbn [strconv.underscores strconv.digits0 andb len List.length].
  now rewrite Z.sub_0_r.
Qed.

Lemma convert_minus (h : bool) (M ND P r r' : Z) :
  strconv.convert (strconv.mkNumber true h M ND P r) =
  (SFopp (fst (strconv.convert (strconv.mkNumber false h M ND P r'))),
   snd (strconv.convert (strconv.mkNumber false h M ND P r'))).
Proof.
  unfold strconv.convert.
  cbn [strconv.mantissa strconv.hex strconv.neg strconv.point strconv.ndigits].
  destruct M as [|m|m]; try reflexivity.
  assert (Hinf : forall f, float64.isInf (SFopp f) = float64.isInf f)
    by (intros [| | |]; reflexivity).
  destruct h.
  - unfold float64.round2, binary_round.
    destruct (shl_align _ _ _) as [mz ez]. cbn [fst snd].
    now rewrite binary_round_aux_opp, Hinf.
  - destruct (310 <? P)%Z; [reflexivity|].
    destruct (P <? -330)%Z; [reflexivity|]. cbn [fst snd].
    unfold float64.round10. destruct (0 <=? P - ND)%Z.
    + unfold binary_round. destruct (shl_align _ _ _) as [mz ez].
      now rewrite binary_round_aux_opp, Hinf.
    + destruct (SFdiv_core_binary _ _ _ _ _ _) as [[q e2] l].
      now rewrite binary_round_aux_opp, Hinf.
Qed.

(** A minus sign before an unsigned numeral in range negates the float
    parsed. *)
Lemma ParseFloat_minus (num : string) :
  unsignedNumeral num = true ->
  snd (strconv.ParseFloat num) = None ->
  strconv.ParseFloat (String "-" num) =
  (SFopp (fst (strconv.ParseFloat num)), None).
Proof.
  intros Hu Hok. pose proof Hu as Hbody. unfold unsignedNumeral in Hbody.
  destruct (unsigned_head num Hu) as [b [t [Hb Hn]]].
  assert (Hsign : strconv.readSign (bytes num) = (false, bytes num)).
  { rewrite Hb. unfold strconv.readSign, numeralByte in *.
    destruct (Z.eqb_spec (code b) 43); [exfalso; lia|].
    destruct (Z.eqb_spec (code b) 45); [exfalso; lia|]. reflexivity. }
  destruct (readFloat_numeral_number (bytes num) false (bytes num)
              ltac:(rewrite Hb; discriminate) Hsign Hbody) as [d [Hd Hpos]].
  destruct (readFloat_numeral_number (bytes (String "-" num)) true (bytes num)
              ltac:(discriminate) eq_refl Hbody) as [d' [Hd' Hneg]].
  rewrite Hd in Hd'. inversion Hd'; subst d'. clear Hd'.
  destruct (special_numeral num (unsigned_decimal num Hu)) as [v [n Hsp]].
  assert (Hp : forall (str : string) (num' : strconv.number) (w : float64.t)
                      (n' : Z),
             strconv.special (bytes str) = (w, n', false) ->
             strconv.readFloat (bytes str) = Some num' ->
             strconv.read num' = len (bytes str) ->
             strconv.ParseFloat str =
             (fst (strconv.convert num'),
              if snd (strconv.convert num')
              then Some (strconv.rangeError strconv.fnParseFloat str)
              else None)).
  { intros str num' w n' H1 H2 H3.
    unfold strconv.ParseFloat, strconv.atof64. rewrite H1, H2, H3.
    destruct (strconv.convert num') as [f ovf].
    rewrite Z.eqb_refl. reflexivity. }
  rewrite (Hp num _ v n Hsp Hpos eq_refl) in Hok |- *.
  rewrite (Hp (String "-" num) _ float64.zero 0%Z
             (infOf_numeral _ _ _ Hbody) Hneg eq_refl).
  rewrite (convert_minus false _ _ _ _ (len (bytes num))).
  destruct (strconv.convert _) as [f ovf]. cbn [fst snd] in Hok |- *.
  destruct ovf; [discriminate | reflexivity].
Qed.

(** X5.  A negative size is not refused: a minus sign before an unsigned
    decimal numeral in range gives the negated value of the size without
    the sign, and no error. *)
Theorem convertStoreToBytes_negative (num u : string) (k : Z) :
  unsignedNumeral num = true ->
  unitPower u = Some k ->
  snd (strconv.ParseFloat num) = None ->
  convertStoreToBytes (String "-" num ++ u) =
  (SFopp (fst (convertStoreToBytes (num ++ u))), None).
Proof.
  intros Hn Hu Hok.
  assert (Hk : (k = 10 \/ k = 20 \/ k = 30)%Z)
    by (destruct (unitPower_cases _ _ Hu) as [[_ ->] | [[_ ->] | [_ ->]]]; auto).
  rewrite (convertStoreToBytes_rest_unit (String "-" num ++ u)
             (String "-" num) u k
             (TrimSpace_numeral_unit (String "-" num) u k Hn Hu) Hu).
  rewrite (convertStoreToBytes_rest_unit (num ++ u) num u k
             (TrimSpace_numeral_unit num u k (unsigned_decimal num Hn) Hu) Hu).
  rewrite (ParseFloat_minus num Hn Hok).
  destruct (strconv.ParseFloat num) as [f err]. cbn [snd] in Hok. subst err.
  cbn [fst]. now rewrite (mul_opp f k Hk).
Qed.

Lemma convertStoreToBytes_negative_example :
  convertStoreToBytes "-1.5gb" =
  (S754_finite true 6755399441055744 (-22), None).
Proof.
  apply (convertStoreToBytes_negative "1.5" "gb" 30); reflexivity.
Defined.

(** ** The fetcher and the callback, over every run *)

Section RunProperties.

Variable World : Type.
Variable Body : Type.
Variable parseURL : string -> option error.
Variable clientDo : World -> Request -> World * (Body + error).
Variable decode : Body -> list ShardInfo * option error.
Variable endpoint : string.

Local Abbreviation fetchIndex :=
  (fetchIndex World Body parseURL clientDo decode endpoint).
Local Abbreviation fetchLoop :=
  (fetchLoop World Body parseURL clientDo decode endpoint).
Local Abbreviation fetchShardInfo :=
  (fetchShardInfo World Body parseURL clientDo decode endpoint).
Local Abbreviation callback :=
  (callback World Body parseURL clientDo decode endpoint).
Local Abbreviation Fetched :=
  (Fetched World Body parseURL clientDo decode endpoint).
Local Abbreviation requestFor := (requestFor endpoint).

Lemma firstn_length_app {A : Type} (a b : list A) :
  firstn (List.length a) (a ++ b) = a.
Proof.
  rewrite firstn_app, Nat.sub_diag, firstn_all. simpl. apply app_nil_r.
Qed.

(** X6.  Whatever the cluster answers, the requests of a fetch are the
    requests of the first [k] indices of the list, one for each and in
    the order of the list, for some [k]: no index is asked twice, none is
    tried again, none is skipped; and a fetch without error has asked
    all of them. *)
Theorem fetchShardInfo_requests (idx : list string) (n : Net World)
        (acc : list ShardInfo) :
  exists k,
    (k <= List.length idx)%nat /\
    sent (fst (fetchLoop idx n acc)) =
      (sent n ++ map requestFor (firstn k idx))%list /\
    (snd (snd (fetchLoop idx n acc)) = None -> k = List.length idx).
Proof.
  destruct (fetchLoop_outcomes World Body parseURL clientDo decode endpoint
              idx n)
    as [[n' [groups HF]]
       | [pre [index [post [n1 [groups [n2 [x [e [-> [HF Hfail]]]]]]]]]]].
  - exists (List.length idx).
    rewrite (fetchLoop_Fetched _ _ _ _ _ _ _ _ _ _ HF acc), firstn_all.
    destruct (Fetched_sent _ _ _ _ _ _ _ _ _ _ HF) as [Hs _]. auto.
  - rewrite (fetchLoop_first_failure _ _ _ _ _ _ _ _ _ _ _ _ _ _ _ HF Hfail acc).
    cbn [fst snd].
    destruct (Fetched_sent _ _ _ _ _ _ _ _ _ _ HF) as [Hs _].
    destruct (fetchIndex_error_sent _ _ _ _ _ _ _ _ _ _ _ Hfail)
      as [_ [H | H]].
    + exists (List.length pre). rewrite length_app, firstn_length_app.
      repeat split; [lia | congruence | discriminate].
    + exists (List.length (pre ++ [index])).
      replace (pre ++ index :: post)%list with ((pre ++ [index]) ++ post)%list
        by (rewrite <- app_assoc; reflexivity).
      rewrite firstn_length_app, !length_app.
      repeat split; [lia | | discriminate].
      now rewrite H, Hs, map_app, app_assoc.
Qed.

(** X7.  When the fetch fails at any index the callback returns the error
    of the fetch, wrapped, and has made no observation at all: the records
    of the indices fetched before the failure are not observed. *)
Theorem callback_fetch_failure_at (pre : list string) (index : string)
        (post : list string) (n n1 n2 : Net World)
        (groups : list (list ShardInfo)) (x : list ShardInfo) (e : error) :
  indices = (pre ++ index :: post)%list ->
  Fetched n pre n1 groups ->
  fetchIndex n1 index = (n2, (x, Some e)) ->
  callback n =
  (n2, ([], Some (wrapError "failed to fetch shard info: " e))).
Proof.
  intros Hidx HF Hfail.
  unfold opensearch.callback, opensearch.fetchShardInfo. rewrite Hidx.
  now rewrite (fetchLoop_first_failure _ _ _ _ _ _ _ _ _ _ _ _ _ _ _
                 HF Hfail []).
Qed.

(** X8.  The callback stops at the first record whose size does not
    convert: when the fetch gave records and one of them does not convert,
    the observer has been given the records before the first such record,
    in order, and no other, and the error returned is the error of that
    record under "failed to convert store size: ". *)
Theorem callback_stops_at_first_failure (n n' : Net World)
        (shards : list ShardInfo) :
  fetchShardInfo n = (n', (shards, None)) ->
  (exists shard, In shard shards /\ ~ converts shard) ->
  exists pre bad post v e,
    shards = (pre ++ bad :: post)%list /\
    Forall converts pre /\
    convertStoreToBytes (Store bad) = (v, Some e) /\
    callback n =
    (n', (map observationOf pre,
          Some (wrapError "failed to convert store size: " e))).
Proof.
  intros Hfetch Hbad.
  destruct (first_not_converting _ Hbad)
    as [pre [bad [post [v [e [-> [Hpre Hconv]]]]]]].
  exists pre, bad, post, v, e. repeat split; auto.
  unfold opensearch.callback. rewrite Hfetch.
  now rewrite (observeShards_first_failure _ _ _ _ _ Hpre Hconv []).
Qed.

Lemma observeShards_error_inv (shards : list ShardInfo) :
  forall (o obs : list Observation) (e : error),
    observeShards shards o = (obs, Some e) ->
    exists pre bad post v e1,
      shards = (pre ++ bad :: post)%list /\ Forall converts pre /\
      convertStoreToBytes (Store bad) = (v, Some e1) /\
      obs = (o ++ map observationOf pre)%list /\
      e = wrapError "failed to convert store size: " e1.
Proof.
  induction shards as [|shard rest IH]; intros o obs e H; [discriminate|].
  cbn [observeShards] in H.
  destruct (convertStoreToBytes (Store shard)) as [v [e1|]] eqn:E.
  - inversion H; subst. exists [], shard, rest, v, e1.
    repeat split; auto. simpl. now rewrite app_nil_r.
  - destruct (IH _ _ _ H) as [pre [bad [post [w [e1 [-> [Hpre [Hbad [-> ->]]]]]]]]].
    exists (shard :: pre), bad, post, w, e1. repeat split; auto.
    + constructor; [unfold converts; now rewrite E | exact Hpre].
    + cbn [map]. unfold observationOf at 2. now rewrite E, <- app_assoc.
Qed.

(** X9.  The callback fails in two ways only.  Either the fetch failed:
    the error is that of the fetch under "failed to fetch shard info: "
    and no observation was made.  Or the fetch gave records and the size
    of one did not convert: the error is that of the first such record
    under "failed to convert store size: ", and the observations made are
    those of the records before it. *)
Theorem callback_errors (n n' : Net World) (obs : list Observation)
        (e : error) :
  callback n = (n', (obs, Some e)) ->
  (obs = [] /\
   exists e1,
     snd (snd (fetchShardInfo n)) = Some e1 /\
     e = wrapError "failed to fetch shard info: " e1) \/
  (exists pre bad post v e1,
      fetchShardInfo n = (n', ((pre ++ bad :: post)%list, None)) /\
      Forall converts pre /\
      convertStoreToBytes (Store bad) = (v, Some e1) /\
      obs = map observationOf pre /\
      e = wrapError "failed to convert store size: " e1).
Proof.
  unfold opensearch.callback.
  destruct (fetchShardInfo n) as [n1 [shards [e1|]]] eqn:Hf; intros H.
  - left. inversion H; subst. split; [reflexivity|]. exists e1. auto.
  - right. inversion H as [[Hn Hobs]].
    destruct (observeShards_error_inv _ _ _ _ Hobs)
      as [pre [bad [post [v [e2 [-> [Hpre [Hbad [-> ->]]]]]]]]].
    exists pre, bad, post, v, e2. auto.
Qed.

(** X10.  A callback that returns no error has made exactly one fetch: the
    GET request for the shards of otlp-metrics, then the one for the
    shards of otlp-logs, and no other request. *)
Theorem callback_requests (n n' : Net World) (obs : list Observation) :
  callback n = (n', (obs, None)) ->
  sent n' =
    (sent n ++
     [ mkRequest "GET" (endpoint ++ "/_cat/shards/otlp-metrics?format=json");
       mkRequest "GET" (endpoint ++ "/_cat/shards/otlp-logs?format=json") ])%list.
Proof.
  unfold opensearch.callback.
  destruct (fetchShardInfo n) as [n1 [shards [e1|]]] eqn:Hf; intros H;
    [discriminate|].
  assert (Hn : n1 = n') by (now inversion H). subst n1.
  destruct (fetchLoop_ok_inv _ _ _ _ _ _ _ _ _ _ _ Hf) as [groups [HF _]].
  destruct (Fetched_sent _ _ _ _ _ _ _ _ _ _ HF) as [Hs _]. exact Hs.
Qed.

Lemma convertStoreToBytes_onlySpace (s : string) :
  onlySpace s = true -> convertStoreToBytes s = (float64.zero, None).
Proof.
  intros H. unfold convertStoreToBytes. now rewrite (TrimSpace_onlySpace s H).
Qed.

(** X11.  A record without a size is observed as 0 bytes, not left out:
    when the callback returns no error, the observation at the place of a
    record whose store is empty or white space has the value 0 and the
    attributes of that record. *)
Theorem callback_blank_store (n n' : Net World) (shards : list ShardInfo)
        (obs : list Observation) (i : nat) (shard : ShardInfo) :
  fetchShardInfo n = (n', (shards, None)) ->
  callback n = (n', (obs, None)) ->
  nth_error shards i = Some shard ->
  onlySpace (Store shard) = true ->
  nth_error obs i =
  Some (mkObservation float64.zero
          [ ("index", Index shard); ("shard", Shard shard);
            ("prirep", Prirep shard); ("state", State shard);
            ("node", Node shard); ("ip", IP shard) ]).
Proof.
  intros Hf Hc Hi Hblank. unfold opensearch.callback in Hc. rewrite Hf in Hc.
  assert (Hobs : observeShards shards [] = (obs, None)) by (now inversion Hc).
  destruct (observeShards_ok_inv _ _ _ Hobs) as [_ ->]. cbn [app].
  rewrite nth_error_map, Hi. cbn [option_map]. unfold observationOf.
  now rewrite (convertStoreToBytes_onlySpace _ Hblank).
Qed.

End RunProperties.

(** ** The registration, tick after tick *)

Section RegistrationProperties.

Variable World : Type.
Variable Body : Type.
Variable parseURL : string -> option error.
Variable clientDo : World -> Request -> World * (Body + error).
Variable decode : Body -> list ShardInfo * option error.
Variable endpoint : string.
Variable Meter : Type.
Variable Instrument : Type.
Variable Float64ObservableGauge :
  Meter -> string -> string -> string -> Meter * (Instrument + error).
Variable RegisterCallback :
  Meter -> Callback World -> Instrument -> Meter * option error.

Local Abbreviation CollectMetrics :=
  (CollectMetrics World Body parseURL clientDo decode endpoint Meter
     Instrument Float64ObservableGauge RegisterCallback).
Local Abbreviation ticks :=
  (ticks World Body parseURL clientDo decode endpoint Meter Instrument
     Float64ObservableGauge RegisterCallback).
Local Abbreviation collectCall :=
  (collectCall World Body parseURL clientDo decode endpoint Meter Instrument
     Float64ObservableGauge RegisterCallback).
Local Abbreviation Sdk := (Sdk World Meter Instrument).
Local Abbreviation MeterCall := (MeterCall World Instrument).

Lemma gauges_app (a b : list MeterCall) :
  gauges (a ++ b) = (gauges a + gauges b)%nat.
Proof.
  induction a as [|[? ? ? ?|? ? ?] a IH]; simpl;
    [reflexivity | now rewrite IH | exact IH].
Qed.

Lemma gaugesMade_app (a b : list MeterCall) :
  gaugesMade (a ++ b) = (gaugesMade a + gaugesMade b)%nat.
Proof.
  induction a as [|[? ? ? [?|?]|? ? ?] a IH]; simpl;
    [reflexivity | now rewrite IH | exact IH | exact IH].
Qed.

Lemma attempts_app (a b : list MeterCall) :
  attempts (a ++ b) = (attempts a + attempts b)%nat.
Proof.
  induction a as [|[? ? ? ?|? ? ?] a IH]; simpl;
    [reflexivity | exact IH | now rewrite IH].
Qed.

Lemma registered_app (a b : list MeterCall) :
  registered (a ++ b) = (registered a + registered b)%nat.
Proof.
  induction a as [|[? ? ? ?|? ? [?|]] a IH]; simpl;
    [reflexivity | exact IH | exact IH | now rewrite IH].
Qed.

(** One call of [CollectMetrics]: one gauge asked for; the callback is
    given to [RegisterCallback] exactly when the gauge was made; and the
    call either registers the callback or returns an error, not both. *)
Lemma CollectMetrics_calls (s : Sdk) :
  exists new,
    calls (fst (CollectMetrics s)) = (calls s ++ new)%list /\
    Forall collectCall new /\
    gauges new = 1%nat /\
    attempts new = gaugesMade new /\
    (registered new +
     match snd (CollectMetrics s) with Some _ => 1 | None => 0 end = 1)%nat.
Proof.
  unfold metrics.CollectMetrics.
  destruct (Float64ObservableGauge (meter s) _ _ _) as [m [g|err]] eqn:Eg.
  - destruct (RegisterCallback m _ g) as [m' err] eqn:Er.
    eexists. split; [reflexivity|]. split.
    + constructor; [|constructor; [|constructor]].
      * repeat split. exists (meter s). now rewrite Eg.
      * split; [reflexivity|]. exists m. now rewrite Er.
    + cbn [fst snd gauges gaugesMade attempts registered].
      destruct err; auto.
  - eexists. split; [reflexivity|]. split.
    + constructor; [|constructor].
      repeat split. exists (meter s). now rewrite Eg.
    + cbn [fst snd gauges gaugesMade attempts registered]. auto.
Qed.

(** X12.  Every tick of [main] calls [CollectMetrics] again and an error
    does not stop the loop.  After [k] ticks the meter has been asked
    [k] times for the gauge of the store size, each time under the same
    name, description and unit; [RegisterCallback] has been called, with
    the callback of the package, exactly on the ticks whose gauge was
    made; every tick has either registered the callback (the call
    returned no error) or logged one error, so that the callbacks
    registered and the errors logged are [k] together; what was called
    and logged before is kept, and nothing is unregistered. *)
Theorem ticks_register_each_time (k : nat) (s : Sdk) (log : list error) :
  exists new errs,
    calls (fst (ticks k s log)) = (calls s ++ new)%list /\
    snd (ticks k s log) = (log ++ errs)%list /\
    Forall collectCall new /\
    gauges new = k /\
    attempts new = gaugesMade new /\
    (registered new + List.length errs = k)%nat.
Proof.
  revert s log. induction k as [|k IH]; intros s log.
  - exists [], []. cbn [metrics.ticks fst snd]. rewrite !app_nil_r.
    repeat split; auto.
  - cbn [metrics.ticks].
    destruct (CollectMetrics_calls s) as [new1 [Hc [Hall [Hg [Ha Hr]]]]].
    destruct (CollectMetrics s) as [s' err]. cbn [fst snd] in *.
    destruct err as [e|].
    + destruct (IH s' (log ++ [e])%list)
        as [new2 [errs [Hc2 [Hl2 [Hall2 [Hg2 [Ha2 Hr2]]]]]]].
      exists (new1 ++ new2)%list, (e :: errs).
      rewrite Hc2, Hc, Hl2, <- !app_assoc, gauges_app, gaugesMade_app,
        attempts_app, registered_app.
      repeat split; auto; [now apply Forall_app | simpl; lia ..].
    + destruct (IH s' log)
        as [new2 [errs [Hc2 [Hl2 [Hall2 [Hg2 [Ha2 Hr2]]]]]]].
      exists (new1 ++ new2)%list, errs.
      rewrite Hc2, Hc, Hl2, <- !app_assoc, gauges_app, gaugesMade_app,
        attempts_app, registered_app.
      repeat split; auto; [now apply Forall_app | simpl; lia ..].
Qed.

End RegistrationProperties.

(** ** Further runs against the stub cluster *)

(** The transport fails for the second index: no observation, not even of
    the two records of the first index. *)
Lemma callback_fetch_failure_at_logs_down :
  Stub.run Stub.logsDown =
  (mkNet tt [mkRequest "GET" Stub.metricsURL; mkRequest "GET" Stub.logsURL],
   ([], Some (wrapError "failed to fetch shard info: "
                (wrapError "failed to execute request: " Stub.refused)))).
Proof.
  exact (callback_fetch_failure_at Stub.World Stub.Body Stub.parseURL
           (Stub.clientDo Stub.logsDown) Stub.decode Stub.endpoint
           ["otlp-metrics"] "otlp-logs" [] Stub.start _ _ _ [] _ eq_refl
           (Stub_metrics_Fetched Stub.logsDown eq_refl) eq_refl).
Defined.

(** The fourth record has an unknown unit: three observations, then the
    error. *)
Lemma callback_stops_at_first_failure_odd_size :
  exists pre bad post v e,
    [Stub.m0; Stub.m1; Stub.l0; Stub.bad] = (pre ++ bad :: post)%list /\
    Forall converts pre /\
    convertStoreToBytes (Store bad) = (v, Some e) /\
    Stub.run Stub.oddSize =
    (mkNet tt [mkRequest "GET" Stub.metricsURL; mkRequest "GET" Stub.logsURL],
     (map observationOf pre,
      Some (wrapError "failed to convert store size: " e))).
Proof.
  apply (callback_stops_at_first_failure Stub.World Stub.Body Stub.parseURL
           (Stub.clientDo Stub.oddSize) Stub.decode Stub.endpoint Stub.start).
  - reflexivity.
  - exists Stub.bad. split; [simpl; auto|]. unfold converts. vm_compute.
    discriminate.
Defined.

Lemma callback_errors_odd_size :
  (fst (snd (Stub.run Stub.oddSize)) = [] /\
   exists e1,
     snd (snd (Stub.fetch Stub.oddSize)) = Some e1 /\
     wrapError "failed to convert store size: "
       (errorString "unknown size unit in: 10tb") =
     wrapError "failed to fetch shard info: " e1) \/
  (exists pre bad post v e1,
      Stub.fetch Stub.oddSize =
        (fst (Stub.run Stub.oddSize), ((pre ++ bad :: post)%list, None)) /\
      Forall converts pre /\
      convertStoreToBytes (Store bad) = (v, Some e1) /\
      fst (snd (Stub.run Stub.oddSize)) = map observationOf pre /\
      wrapError "failed to convert store size: "
        (errorString "unknown size unit in: 10tb") =
      wrapError "failed to convert store size: " e1).
Proof.
  apply (callback_errors Stub.World Stub.Body Stub.parseURL
           (Stub.clientDo Stub.oddSize) Stub.decode Stub.endpoint Stub.start).
  vm_compute. reflexivity.
Defined.

Lemma callback_requests_healthy :
  sent (fst (Stub.run Stub.healthy)) =
    (sent Stub.start ++
     [ mkRequest "GET" (Stub.endpoint ++ "/_cat/shards/otlp-metrics?format=json");
       mkRequest "GET" (Stub.endpoint ++ "/_cat/shards/otlp-logs?format=json") ])%list.
Proof.
  apply (callback_requests Stub.World Stub.Body Stub.parseURL
           (Stub.clientDo Stub.healthy) Stub.decode Stub.endpoint Stub.start
           _ (fst (snd (Stub.run Stub.healthy)))).
  vm_compute. reflexivity.
Defined.

(** The unassigned shard without a size is the second of three
    observations, with the value 0. *)
Lemma callback_blank_store_unassigned :
  nth_error
    (fst (snd (callback Stub.World Stub.Body Stub.parseURL
                 (Stub.clientDo StubBlank.serve) Stub.decode Stub.endpoint
                 Stub.start))) 1 =
  Some (mkObservation float64.zero
          [ ("index", "otlp-logs"); ("shard", "1"); ("prirep", "r");
            ("state", "UNASSIGNED"); ("node", ""); ("ip", "") ]).
Proof.
  apply (callback_blank_store Stub.World Stub.Body Stub.parseURL
           (Stub.clientDo StubBlank.serve) Stub.decode Stub.endpoint
           Stub.start
           (mkNet tt [mkRequest "GET" Stub.metricsURL; mkRequest "GET" Stub.logsURL])
           [Stub.m0; StubBlank.unassigned; Stub.l0] _ 1 StubBlank.unassigned).
  - reflexivity.
  - vm_compute. reflexivity.
  - reflexivity.
  - reflexivity.
Defined.

(** Five ticks, the gauge failing at the second and fourth, the
    registration refused at the third: five gauges asked for, three
    calls of [RegisterCallback], two callbacks registered, three errors
    logged. *)
Lemma ticks_five :
  gauges (calls (fst (StubMeter.run Nat.odd (fun i => Nat.eqb i 2) 5))) = 5%nat /\
  attempts (calls (fst (StubMeter.run Nat.odd (fun i => Nat.eqb i 2) 5))) = 3%nat /\
  registered (calls (fst (StubMeter.run Nat.odd (fun i => Nat.eqb i 2) 5))) = 2%nat /\
  snd (StubMeter.run Nat.odd (fun i => Nat.eqb i 2) 5) =
    [ wrapError "failed to create store size gauge: " StubMeter.exists_;
      StubMeter.rejected;
      wrapError "failed to create store size gauge: " StubMeter.exists_ ].
Proof. vm_compute. auto. Qed.
